(** * MEXC futures alert bot: price-change detector, dispatcher, backoff

    A shallow embedding of [src/mexc_futures_bot.py]: the per-symbol
    detector [process_ticker], the message classifier [fmt_alert], the
    backup job [job_reset_base_prices], the reconnection loop of
    [websocket_stream] and the [/subscribe] command.

    Modelling conventions.
    - Python [float] values (prices, volumes, percentages) are exact
      rationals [Q]; the thresholds 1.5, 3.0, 5.0 and 10.0 are exact in
      both.  The only float exception the detector can meet, the
      [ZeroDivisionError] of a division by a zero base price, is modelled
      explicitly.
    - A [datetime] is an integer number of microseconds (the resolution of
      [datetime]); [(a - b).total_seconds() > n] is [n * 10^6 < a - b].
    - The process-wide dictionaries are [gmap]s, the sets are [gset]s, and
      the module globals are threaded explicitly: the detector state
      ([State]) is passed and returned, the subscriber registry
      ([Registry]) is read.
    - [print] calls are dropped; awaiting the sends has no effect on the
      state (every exception of a send is swallowed by
      [return_exceptions=True]), so a dispatch is the list of its targets. *)

From Stdlib Require Import ZArith QArith Qabs Lqa Ascii String List Lia.
From stdpp Require Import gmap strings list fin_maps sorting.

Local Open Scope Z_scope.

(** ** Numbers and time *)

Module Py.

(** [a <= b] on floats. *)
Definition le (a b : Q) : bool := Qle_bool a b.

(** [a < b] on floats. *)
Definition lt (a b : Q) : bool := negb (Qle_bool b a).

(** [a >= b] and [a > b] on floats. *)
Definition ge (a b : Q) : bool := le b a.
Definition gt (a b : Q) : bool := lt b a.

(** [a == b] on floats. *)
Definition eq (a b : Q) : bool := Qeq_bool a b.

(** Truthiness of an optional string: [None] and [""] are falsy. *)
Definition truthy (s : option string) : bool :=
  match s with
  | None => false
  | Some EmptyString => false
  | Some (String _ _) => true
  end.

(** [d.get(key, 0)] followed by [float(...)] on a numeric field. *)
Definition get_float (field : option Q) : Q :=
  match field with
  | Some x => x
  | None => 0%Q
  end.

End Py.

Abbreviation datetime := Z (only parsing).

(** [(a - b).total_seconds() > n] for an integer literal [n]. *)
Definition total_seconds_gt (a b : datetime) (n : Z) : bool :=
  n * 1000000 <? a - b.

(** ** Configuration constants *)

Definition PUMP_THRESHOLD : Q := 3.
Definition DUMP_THRESHOLD : Q := -3.
Definition MODERATE_MAX : Q := 5.
Definition EXTREME_THRESHOLD : Q := 10.
Definition MIN_VOL_THRESHOLD : Q := 100000.

(** ** Global state *)

(** An entry of [LAST_PRICES]: [{"price": ..., "time": ...}]. *)
Record LastPrice := mkLastPrice { lp_price : Q; lp_time : datetime }.

(** An entry of [MAX_CHANGES]: [{"max_pct": ..., "time": ...}]. *)
Record MaxChange := mkMaxChange { max_pct : Q; max_time : datetime }.

(** The dictionaries the detector and the backup job write. *)
Record State := mkState {
  LAST_PRICES : gmap string LastPrice;
  BASE_PRICES : gmap string Q;
  ALERTED_SYMBOLS : gmap string datetime;
  MAX_CHANGES : gmap string MaxChange;
  LAST_SIGNIFICANT_CHANGE : gmap string datetime
}.

(** The globals the dispatcher reads and the commands write. *)
Record Registry := mkRegistry {
  CHANNEL_ID : option string;
  SUBSCRIBERS : gset Z;
  ALERT_MODE : gmap Z Z;
  MUTED_COINS : gmap Z (gset string)
}.

(** All dictionaries empty: the state at process start ([load_data]
    restores the registry only). *)
Definition initial_state : State :=
  mkState ∅ ∅ ∅ ∅ ∅.

Definition set_LAST_PRICES (m : gmap string LastPrice) (st : State) : State :=
  mkState m (BASE_PRICES st) (ALERTED_SYMBOLS st) (MAX_CHANGES st)
          (LAST_SIGNIFICANT_CHANGE st).

Definition set_BASE_PRICES (m : gmap string Q) (st : State) : State :=
  mkState (LAST_PRICES st) m (ALERTED_SYMBOLS st) (MAX_CHANGES st)
          (LAST_SIGNIFICANT_CHANGE st).

Definition set_ALERTED_SYMBOLS (m : gmap string datetime) (st : State) : State :=
  mkState (LAST_PRICES st) (BASE_PRICES st) m (MAX_CHANGES st)
          (LAST_SIGNIFICANT_CHANGE st).

Definition set_MAX_CHANGES (m : gmap string MaxChange) (st : State) : State :=
  mkState (LAST_PRICES st) (BASE_PRICES st) (ALERTED_SYMBOLS st) m
          (LAST_SIGNIFICANT_CHANGE st).

Definition set_LAST_SIGNIFICANT_CHANGE (m : gmap string datetime) (st : State) : State :=
  mkState (LAST_PRICES st) (BASE_PRICES st) (ALERTED_SYMBOLS st)
          (MAX_CHANGES st) m.

(** ** The ticker payload *)

(** The [data] object of a [push.ticker] message; a missing key is [None]. *)
Record Ticker := mkTicker {
  symbol : option string;
  lastPrice : option Q;
  amount24 : option Q;
  volume24 : option Q
}.

(** ** Message formatting *)

Inductive Color := Green | Red.
Inductive Icon := Rocket3 | Boom3 | Rocket2 | Boom2.

(** [symbol.replace("_USDT", "")]: every non-overlapping occurrence, left
    to right.  [skip] counts the characters of a match still to drop. *)
Fixpoint replace_USDT_from (skip : nat) (s : string) : string :=
  match s with
  | EmptyString => EmptyString
  | String c rest =>
      match skip with
      | S k => replace_USDT_from k rest
      | O =>
          if String.prefix "_USDT" s
          then replace_USDT_from 4 rest
          else String c (replace_USDT_from 0 rest)
      end
  end.

Definition replace_USDT (s : string) : string := replace_USDT_from 0 s.

(** The pieces [fmt_alert] assembles into the text.  The numbers are kept
    as numbers ([size_tag] is the percentage and whether it is set in
    bold); their decimal rendering is not modelled. *)
Record AlertText := mkAlertText {
  highlight : bool;
  icon : Icon;
  coin : string;
  link : string;
  size_tag : Q * bool;
  color : Color;
  old_price : Q;
  new_price : Q
}.

Definition fmt_alert (symbol : string) (old_price new_price change_pct : Q)
  : AlertText :=
  let color := if Py.ge change_pct 0 then Green else Red in
  let abs_change := Qabs change_pct in
  let '(icon, highlight, size_tag) :=
    if Py.ge abs_change EXTREME_THRESHOLD
    then (if Py.ge change_pct 0 then Rocket3 else Boom3, true, (change_pct, true))
    else (if Py.ge change_pct 0 then Rocket2 else Boom2, false, (change_pct, false)) in
  let coin := replace_USDT symbol in
  let link := ("https://www.mexc.co/futures/" ++ symbol)%string in
  mkAlertText highlight icon coin link size_tag color old_price new_price.

(** The two renderings of [fmt_alert], named as the specification names
    them. *)
Inductive Severity := MODERATE | EXTREME.

Definition severity (msg : AlertText) : Severity :=
  if highlight msg then EXTREME else MODERATE.

(** ** Dispatch *)

(** The [chat_id] of one [bot.send_message] task. *)
Inductive Target :=
| Channel (id : string)
| Chat (chat_id : Z).

(** What one qualifying sample produces: the text and the send tasks
    gathered for it, in order. *)
Record Alert := mkAlert {
  msg : AlertText;
  tasks : list Target
}.

(** [chat_id in MUTED_COINS and symbol in MUTED_COINS[chat_id]] *)
Definition is_muted (reg : Registry) (chat_id : Z) (symbol : string) : bool :=
  match MUTED_COINS reg !! chat_id with
  | Some coins => bool_decide (symbol ∈ coins)
  | None => false
  end.

(** [ALERT_MODE.get(chat_id, 1)] *)
Definition alert_mode (reg : Registry) (chat_id : Z) : Z :=
  match ALERT_MODE reg !! chat_id with
  | Some mode => mode
  | None => 1
  end.

(** The body of the subscriber loop: [false] on a [continue], [true] when
    the send task is appended. *)
Definition subscriber_gets (reg : Registry) (symbol : string) (abs_change : Q)
    (chat_id : Z) : bool :=
  if is_muted reg chat_id symbol then false
  else
    let mode := alert_mode reg chat_id in
    if (mode =? 2)
       && negb (Py.le PUMP_THRESHOLD abs_change && Py.le abs_change MODERATE_MAX)
    then false
    else if (mode =? 3) && Py.lt abs_change EXTREME_THRESHOLD
    then false
    else true.

(** The task list built for one alert: the channel first when
    [CHANNEL_ID] is set, then the subscribers that pass the filters. *)
Definition build_tasks (reg : Registry) (symbol : string) (abs_change : Q)
  : list Target :=
  (if Py.truthy (CHANNEL_ID reg)
   then match CHANNEL_ID reg with Some c => [Channel c] | None => [] end
   else [])
  ++ map Chat (filter (λ chat_id, subscriber_gets reg symbol abs_change chat_id = true)
                      (elements (SUBSCRIBERS reg))).

(** ** The detector *)

(** [(current_price - base_price) / base_price * 100] *)
Definition change_pct (current_price base_price : Q) : Q :=
  ((current_price - base_price) / base_price * 100)%Q.

(** [float(ticker_data.get("lastPrice", 0))] *)
Definition price (ticker_data : Ticker) : Q :=
  Py.get_float (lastPrice ticker_data).

(** The turnover in USDT: [amount24], or [volume24 * lastPrice] when
    [amount24] is missing or zero. *)
Definition turnover_usdt (ticker_data : Ticker) : Q :=
  let current_price := price ticker_data in
  let volume_usdt := Py.get_float (amount24 ticker_data) in
  if Py.eq volume_usdt 0
  then
    let volume_coin := Py.get_float (volume24 ticker_data) in
    (volume_coin * current_price)%Q
  else volume_usdt.

(** The guard [current_price <= 0 or volume_usdt < MIN_VOL_THRESHOLD]. *)
Definition rejected (ticker_data : Ticker) : bool :=
  Py.le (price ticker_data) 0
  || Py.lt (turnover_usdt ticker_data) MIN_VOL_THRESHOLD.

(** The block under "track max change": a missing entry is created from
    the current change; an existing one is overwritten, and the time of
    the last significant change recorded, only by a strictly larger move. *)
Definition track_max_change (symbol : string) (price_change : Q)
    (now : datetime) (st : State) : State :=
  match MAX_CHANGES st !! symbol with
  | None =>
      set_MAX_CHANGES (<[symbol := mkMaxChange price_change now]> (MAX_CHANGES st)) st
  | Some m =>
      if Py.gt (Qabs price_change) (Qabs (max_pct m))
      then
        set_LAST_SIGNIFICANT_CHANGE
          (<[symbol := now]> (LAST_SIGNIFICANT_CHANGE st))
          (set_MAX_CHANGES
             (<[symbol := mkMaxChange price_change now]> (MAX_CHANGES st)) st)
      else st
  end.

(** The value of [should_reset_base]. *)
Definition should_reset_base (symbol : string) (abs_change : Q)
    (now : datetime) (st : State) : bool :=
  if Py.lt abs_change 1.5 then true
  else
    match LAST_SIGNIFICANT_CHANGE st !! symbol with
    | Some t => if total_seconds_gt now t 50 then true else false
    | None => false
    end.

(** [BASE_PRICES[symbol] = current_price] and
    [MAX_CHANGES[symbol] = {"max_pct": 0.0, "time": now}]. *)
Definition reset_base (symbol : string) (current_price : Q) (now : datetime)
    (st : State) : State :=
  set_MAX_CHANGES (<[symbol := mkMaxChange 0 now]> (MAX_CHANGES st))
    (set_BASE_PRICES (<[symbol := current_price]> (BASE_PRICES st)) st).

(** [price_change >= PUMP_THRESHOLD or price_change <= DUMP_THRESHOLD] *)
Definition qualifies (price_change : Q) : bool :=
  Py.ge price_change PUMP_THRESHOLD || Py.le price_change DUMP_THRESHOLD.

(** The part of [process_ticker] that follows the computation of
    [price_change]: extremum tracking, the base reset, the alert decision,
    the dispatch and the reset after an extreme alert. *)
Definition detect (reg : Registry) (now : datetime) (symbol : string)
    (current_price base_price : Q) (st : State) : State * option Alert :=
  let price_change := change_pct current_price base_price in
  let abs_change := Qabs price_change in
  let st := track_max_change symbol price_change now st in
  let st :=
    if should_reset_base symbol abs_change now st
    then reset_base symbol current_price now st
    else st in
  if negb (qualifies price_change) then (st, None)
  else
    let st := set_ALERTED_SYMBOLS (<[symbol := now]> (ALERTED_SYMBOLS st)) st in
    let msg := fmt_alert symbol base_price current_price price_change in
    let tasks := build_tasks reg symbol abs_change in
    match tasks with
    | [] => (st, Some (mkAlert msg tasks))
    | _ :: _ =>
        if Py.ge abs_change EXTREME_THRESHOLD
        then (reset_base symbol current_price now st, Some (mkAlert msg tasks))
        else (st, Some (mkAlert msg tasks))
    end.

(** [process_ticker]: the new state and the alert of the sample, if any.
    A zero base price makes the computation of [price_change] raise; the
    handler of the enclosing [try] swallows the exception, and what was
    written before it stays written. *)
Definition process_ticker (reg : Registry) (now : datetime)
    (ticker_data : Ticker) (st : State) : State * option Alert :=
  if negb (Py.truthy (symbol ticker_data)) then (st, None)
  else
    match symbol ticker_data with
    | None => (st, None)
    | Some symbol =>
        let current_price := price ticker_data in
        if rejected ticker_data then (st, None)
        else
          let st :=
            set_LAST_PRICES
              (<[symbol := mkLastPrice current_price now]> (LAST_PRICES st)) st in
          match BASE_PRICES st !! symbol with
          | None =>
              (set_BASE_PRICES (<[symbol := current_price]> (BASE_PRICES st)) st,
               None)
          | Some base_price =>
              if Py.eq base_price 0 then (st, None)
              else detect reg now symbol current_price base_price st
          end
    end.

(** The receive loop of [websocket_stream] handing the ticker messages of
    a session to [process_ticker] one after the other, each with the time
    at which it is processed: the final state and the alert of each
    message. *)
Fixpoint process_all (reg : Registry) (messages : list (datetime * Ticker))
    (st : State) : State * list (option Alert) :=
  match messages with
  | [] => (st, [])
  | (now, ticker_data) :: rest =>
      let '(st, alert) := process_ticker reg now ticker_data st in
      let '(st, alerts) := process_all reg rest st in
      (st, alert :: alerts)
  end.

(** ** The backup job *)

(** The test [not last_alert or (now - last_alert).total_seconds() > 300]. *)
Definition no_recent_alert (now : datetime) (last_alert : option datetime) : bool :=
  match last_alert with
  | None => true
  | Some t => total_seconds_gt now t 300
  end.

(** One iteration of the loop over [LAST_PRICES.items()]. *)
Definition reset_one (now : datetime) (st : State) (item : string * LastPrice)
  : State :=
  let '(symbol, info) := item in
  let last_price := lp_price info in
  let last_alert := ALERTED_SYMBOLS st !! symbol in
  if no_recent_alert now last_alert
  then set_BASE_PRICES (<[symbol := last_price]> (BASE_PRICES st)) st
  else st.

(** [job_reset_base_prices]: the loop runs over a snapshot of the items;
    [reset_count] only feeds a [print] and is not kept. *)
Definition job_reset_base_prices (now : datetime) (st : State) : State :=
  foldl (reset_one now) st (map_to_list (LAST_PRICES st)).

(** ** The reconnection loop *)

(** How one pass through the [try] block of [websocket_stream] ends: an
    exception before [websockets.connect] returns (fetching the symbols or
    connecting), an exception after the connection was made, or the
    receive loop running out without an exception. *)
Inductive Attempt := ConnectFailed | ConnectedThenError | ConnectedThenClosed.

(** The [try] block: the delay on leaving it and whether it raised.
    [reconnect_delay = 5] runs right after the connection is made. *)
Definition try_block (reconnect_delay : Z) (a : Attempt) : Z * bool :=
  match a with
  | ConnectFailed => (reconnect_delay, true)
  | ConnectedThenError => (5, true)
  | ConnectedThenClosed => (5, false)
  end.

(** The [except] block: the time slept and the next delay. *)
Definition except_block (reconnect_delay : Z) : Z * Z :=
  (reconnect_delay, Z.min (reconnect_delay * 2) 60).

(** The [while True] loop run over a finite sequence of attempts: the
    sleeps performed, in order, and the delay left in [reconnect_delay]. *)
Fixpoint reconnect_loop (reconnect_delay : Z) (attempts : list Attempt)
  : list Z * Z :=
  match attempts with
  | [] => ([], reconnect_delay)
  | a :: rest =>
      let '(reconnect_delay, raised) := try_block reconnect_delay a in
      if raised
      then
        let '(slept, reconnect_delay) := except_block reconnect_delay in
        let '(sleeps, final) := reconnect_loop reconnect_delay rest in
        (slept :: sleeps, final)
      else reconnect_loop reconnect_delay rest
  end.

(** [websocket_stream] starts with [reconnect_delay = 5]. *)
Definition websocket_stream (attempts : list Attempt) : list Z * Z :=
  reconnect_loop 5 attempts.

(** ** Commands *)

(** The [admin_only] decorator: with no admin configured everybody may
    run the command; otherwise a non-admin gets a refusal and the command
    body does not run. *)
Definition admin_only (ADMIN_IDS : gset Z) (func : Z → Registry → Registry)
    (user_id chat_id : Z) (reg : Registry) : Registry :=
  if bool_decide (ADMIN_IDS = ∅) then func chat_id reg
  else if bool_decide (user_id ∈ ADMIN_IDS) then func chat_id reg
  else reg.

(** The body of [cmd_subscribe]: [SUBSCRIBERS.add(chat_id)]. *)
Definition subscribe_body (chat_id : Z) (reg : Registry) : Registry :=
  mkRegistry (CHANNEL_ID reg) ({[chat_id]} ∪ SUBSCRIBERS reg)
             (ALERT_MODE reg) (MUTED_COINS reg).

Definition cmd_subscribe (ADMIN_IDS : gset Z) (user_id chat_id : Z)
    (reg : Registry) : Registry :=
  admin_only ADMIN_IDS subscribe_body user_id chat_id reg.

(** * Further parts of the program *)

(** ** The other commands *)

(** [cmd_start], the one command that is not wrapped in [admin_only]:
    the chat becomes a subscriber and gets mode 1 unless it has a mode. *)
Definition cmd_start (chat_id : Z) (reg : Registry) : Registry :=
  let subscribers := {[chat_id]} ∪ SUBSCRIBERS reg in
  let modes :=
    match ALERT_MODE reg !! chat_id with
    | Some _ => ALERT_MODE reg
    | None => <[chat_id := 1]> (ALERT_MODE reg)
    end in
  mkRegistry (CHANNEL_ID reg) subscribers modes (MUTED_COINS reg).

(** The body of [cmd_unsubscribe]: [SUBSCRIBERS.discard(chat_id)]. *)
Definition unsubscribe_body (chat_id : Z) (reg : Registry) : Registry :=
  mkRegistry (CHANNEL_ID reg) (SUBSCRIBERS reg ∖ {[chat_id]})
             (ALERT_MODE reg) (MUTED_COINS reg).

Definition cmd_unsubscribe (ADMIN_IDS : gset Z) (user_id chat_id : Z)
    (reg : Registry) : Registry :=
  admin_only ADMIN_IDS unsubscribe_body user_id chat_id reg.

(** The body shared by [cmd_mode1], [cmd_mode2] and [cmd_mode3]:
    [ALERT_MODE[chat_id] = mode]. *)
Definition mode_body (mode : Z) (chat_id : Z) (reg : Registry) : Registry :=
  mkRegistry (CHANNEL_ID reg) (SUBSCRIBERS reg)
             (<[chat_id := mode]> (ALERT_MODE reg)) (MUTED_COINS reg).

Definition cmd_mode1 (ADMIN_IDS : gset Z) (user_id chat_id : Z)
    (reg : Registry) : Registry :=
  admin_only ADMIN_IDS (mode_body 1) user_id chat_id reg.

Definition cmd_mode2 (ADMIN_IDS : gset Z) (user_id chat_id : Z)
    (reg : Registry) : Registry :=
  admin_only ADMIN_IDS (mode_body 2) user_id chat_id reg.

Definition cmd_mode3 (ADMIN_IDS : gset Z) (user_id chat_id : Z)
    (reg : Registry) : Registry :=
  admin_only ADMIN_IDS (mode_body 3) user_id chat_id reg.

(** [s.endswith("_USDT")] *)
Definition endswith_USDT (s : string) : bool :=
  String.eqb (String.substring (String.length s - 5) 5 s) "_USDT".

(** [f"{coin}_USDT" if not coin.endswith("_USDT") else coin] *)
Definition symbol_of_coin (coin : string) : string :=
  if negb (endswith_USDT coin) then (coin ++ "_USDT")%string else coin.

Section MuteCommands.

(** [str.upper] followed by [str.strip], Python's own functions, are left
    abstract. *)
Variable upper_strip : string → string.

(** The body of [cmd_mute]; [args] is [context.args].  Without an
    argument the command only replies with its usage. *)
Definition mute_body (args : list string) (chat_id : Z) (reg : Registry)
  : Registry :=
  match args with
  | [] => reg
  | arg :: _ =>
      let coin := upper_strip arg in
      let symbol := symbol_of_coin coin in
      let coins :=
        match MUTED_COINS reg !! chat_id with
        | Some coins => coins
        | None => ∅
        end in
      mkRegistry (CHANNEL_ID reg) (SUBSCRIBERS reg) (ALERT_MODE reg)
                 (<[chat_id := {[symbol]} ∪ coins]> (MUTED_COINS reg))
  end.

(** The body of [cmd_unmute]: the symbol is removed when it is muted, and
    nothing changes otherwise. *)
Definition unmute_body (args : list string) (chat_id : Z) (reg : Registry)
  : Registry :=
  match args with
  | [] => reg
  | arg :: _ =>
      let coin := upper_strip arg in
      let symbol := symbol_of_coin coin in
      match MUTED_COINS reg !! chat_id with
      | Some coins =>
          if bool_decide (symbol ∈ coins)
          then mkRegistry (CHANNEL_ID reg) (SUBSCRIBERS reg) (ALERT_MODE reg)
                          (<[chat_id := coins ∖ {[symbol]}]> (MUTED_COINS reg))
          else reg
      | None => reg
      end
  end.

Definition cmd_mute (ADMIN_IDS : gset Z) (args : list string)
    (user_id chat_id : Z) (reg : Registry) : Registry :=
  admin_only ADMIN_IDS (mute_body args) user_id chat_id reg.

Definition cmd_unmute (ADMIN_IDS : gset Z) (args : list string)
    (user_id chat_id : Z) (reg : Registry) : Registry :=
  admin_only ADMIN_IDS (unmute_body args) user_id chat_id reg.

End MuteCommands.

(** [sorted(...)] on a list of strings: the order of [str] is that of the
    code points, which is the order of the encoded bytes. *)
Definition sorted (l : list string) : list string := merge_sort String.le l.


(** ** JSON values and the HTTP helper *)

(** What [json.loads] and [r.json()] return.  A dict is the list of its
    items, each key once. *)
#[local] Unset Elimination Schemes.
Inductive Json :=
| JNull
| JBool (b : bool)
| JNumber (x : Q)
| JString (s : string)
| JArray (elements : list Json)
| JObject (items : list (string * Json)).
#[local] Set Elimination Schemes.

(** [d.get(key)] *)
Fixpoint dict_get (key : string) (items : list (string * Json)) : option Json :=
  match items with
  | [] => None
  | (k, v) :: rest => if String.eqb k key then Some v else dict_get key rest
  end.

(** The truth value of [d.get(key)]. *)
Definition json_truthy (v : option Json) : bool :=
  match v with
  | None => false
  | Some JNull => false
  | Some (JBool b) => b
  | Some (JNumber x) => negb (Py.eq x 0)
  | Some (JString s) => negb (String.eqb s "")
  | Some (JArray elements) => match elements with [] => false | _ => true end
  | Some (JObject items) => match items with [] => false | _ => true end
  end.

(** How one request of [fetch_json] ends: status 429, an exception (of
    the request, of [raise_for_status] or of [r.json()]), or a JSON
    body. *)
Inductive Reply :=
| TooManyRequests
| RequestFailed
| Answered (body : Json).

(** How [fetch_json] ends: it returns a value, re-raises the exception of
    the last attempt, or raises its own [RuntimeError]. *)
Inductive Fetched :=
| Returned (value : Json)
| Raised
| GaveUp.

(** [data.get("data", data)] on a dict. *)
Definition unwrap_data (items : list (string * Json)) : Json :=
  match dict_get "data" items with
  | Some v => v
  | None => JObject items
  end.

(** The loop [for attempt in range(retry)] from [attempt] on, with
    [remaining] rounds to go: the sleeps, in seconds, and the outcome.
    [reply] tells how the request of each attempt ends and [jitter] what
    [random.uniform] draws in it.  A body that is not a dict makes
    [data.get] raise inside the [try], which is handled like any other
    exception. *)
Fixpoint fetch_attempts (remaining attempt retry : nat)
    (reply : nat → Reply) (jitter : nat → Q) : list Q * Fetched :=
  match remaining with
  | O => ([], GaveUp)
  | S remaining =>
      let next := fetch_attempts remaining (S attempt) retry reply jitter in
      let on_exception :=
        if (attempt =? retry - 1)%nat then ([], Raised)
        else (jitter attempt :: next.1, next.2) in
      match reply attempt with
      | TooManyRequests =>
          ((inject_Z (2 ^ Z.of_nat attempt) + jitter attempt)%Q :: next.1,
           next.2)
      | RequestFailed => on_exception
      | Answered (JObject items) => ([], Returned (unwrap_data items))
      | Answered _ => on_exception
      end
  end.

Definition fetch_json (retry : nat) (reply : nat → Reply) (jitter : nat → Q)
  : list Q * Fetched :=
  fetch_attempts retry 0 retry reply jitter.

(** ** The instrument catalog *)

(** [c.get("settleCoin") == "USDT" and c.get("state") == 0]; [False]
    equals [0] in Python. *)
Definition is_active_usdt (c : list (string * Json)) : bool :=
  match dict_get "settleCoin" c with
  | Some (JString s) => String.eqb s "USDT"
  | _ => false
  end
  && match dict_get "state" c with
     | Some (JNumber x) => Py.eq x 0
     | Some (JBool b) => negb b
     | _ => false
     end.

(** An element of the payload on which [c.get] can be called. *)
Definition as_dict (c : Json) : option (list (string * Json)) :=
  match c with
  | JObject items => Some items
  | _ => None
  end.

(** The body of [get_all_contracts] after the fetch; [None] stands for an
    exception: the payload cannot be iterated, or one of its elements has
    no [get]. *)
Definition select_contracts (data : Json)
  : option (list (list (string * Json))) :=
  let data := match data with JObject _ => JArray [data] | _ => data end in
  match data with
  | JArray elements => filter (λ c, is_active_usdt c = true) <$> mapM as_dict elements
  | JString EmptyString => Some []
  | _ => None
  end.

(** [get_all_contracts], with the default [retry] of [fetch_json]. *)
Definition get_all_contracts (reply : nat → Reply) (jitter : nat → Q)
  : option (list (list (string * Json))) :=
  match (fetch_json 3 reply jitter).2 with
  | Returned data => select_contracts data
  | _ => None
  end.

(** [c["symbol"]] when [c.get("symbol")] is true. *)
Definition symbol_field (c : list (string * Json)) : option Json :=
  if json_truthy (dict_get "symbol" c) then dict_get "symbol" c else None.

(** [get_all_symbols] *)
Definition get_all_symbols (reply : nat → Reply) (jitter : nat → Q)
  : option (list Json) :=
  match get_all_contracts reply jitter with
  | Some contracts => Some (omap (M := list) symbol_field contracts)
  | None => None
  end.

(** ** New listings and the subscription queue *)

(** The globals about the symbols: the known symbols, the list the
    stream subscribes to, and the queue of symbols to subscribe during a
    session ([None] until [websocket_stream] creates it). *)
Record Catalog := mkCatalog {
  KNOWN_SYMBOLS : gset string;
  ALL_SYMBOLS : list string;
  WS_SUB_QUEUE : option (list string)
}.

(** What the bot sends on the WebSocket: a subscription to the ticker of
    a symbol, or the answer to a ping. *)
Inductive Frame :=
| SubTicker (sym : string)
| Pong (n : Z).

(** The announcement of new listings: the coin names, one line each, and
    the destinations it is sent to. *)
Record Announcement := mkAnnouncement {
  announced : list string;
  sent_to : list Target
}.

(** One round of the last loop of [job_new_listing]: the symbol joins
    [ALL_SYMBOLS] unless it is there, and the queue when there is one. *)
Definition enqueue_new (cat : Catalog) (sym : string) : Catalog :=
  let all :=
    if bool_decide (sym ∈ ALL_SYMBOLS cat) then ALL_SYMBOLS cat
    else ALL_SYMBOLS cat ++ [sym] in
  let queue :=
    match WS_SUB_QUEUE cat with
    | Some queue => Some (queue ++ [sym])
    | None => None
    end in
  mkCatalog (KNOWN_SYMBOLS cat) all queue.

(** [job_new_listing]; [fetched] is what [get_all_symbols] returned, a
    list of strings, or [None] when it raised.  The sends are wrapped in
    [try], each on its own, and do not touch the state. *)
Definition job_new_listing (reg : Registry) (fetched : option (list string))
    (cat : Catalog) : Catalog * option Announcement :=
  if bool_decide (SUBSCRIBERS reg = ∅) && negb (Py.truthy (CHANNEL_ID reg))
  then (cat, None)
  else
    match fetched with
    | None => (cat, None)
    | Some symbols =>
        if bool_decide (KNOWN_SYMBOLS cat = ∅)
        then (mkCatalog (list_to_set symbols) (ALL_SYMBOLS cat)
                        (WS_SUB_QUEUE cat), None)
        else
          let new_coins : gset string :=
            list_to_set symbols ∖ KNOWN_SYMBOLS cat in
          if bool_decide (new_coins = ∅) then (cat, None)
          else
            let cat :=
              mkCatalog (KNOWN_SYMBOLS cat ∪ new_coins) (ALL_SYMBOLS cat)
                        (WS_SUB_QUEUE cat) in
            let lines := map replace_USDT (sorted (elements new_coins)) in
            let channel :=
              if Py.truthy (CHANNEL_ID reg)
              then match CHANNEL_ID reg with Some c => [Channel c] | None => [] end
              else [] in
            let chats := map Chat (elements (SUBSCRIBERS reg)) in
            (foldl enqueue_new cat (elements new_coins),
             Some (mkAnnouncement lines (channel ++ chats)))
    end.

(** The block of [websocket_stream] before the connection: the queue is
    created, and an empty [ALL_SYMBOLS] is fetched, seeding an empty
    [KNOWN_SYMBOLS].  The flag tells whether the block got through; the
    queue stays created when the fetch raises. *)
Definition before_connect (fetched : option (list string)) (cat : Catalog)
  : Catalog * bool :=
  let queue :=
    match WS_SUB_QUEUE cat with
    | None => Some []
    | Some queue => Some queue
    end in
  match ALL_SYMBOLS cat with
  | [] =>
      match fetched with
      | None => (mkCatalog (KNOWN_SYMBOLS cat) [] queue, false)
      | Some symbols =>
          let known :=
            if bool_decide (KNOWN_SYMBOLS cat = ∅) then list_to_set symbols
            else KNOWN_SYMBOLS cat in
          (mkCatalog known symbols queue, true)
      end
  | _ :: _ => (mkCatalog (KNOWN_SYMBOLS cat) (ALL_SYMBOLS cat) queue, true)
  end.

(** The subscriptions sent right after the connection is made. *)
Definition subscribe_all (cat : Catalog) : list Frame :=
  map SubTicker (ALL_SYMBOLS cat).

(** Where the loop [while not WS_SUB_QUEUE.empty()] stands: the frames
    sent, [ALL_SYMBOLS], the queue, and whether the loop has ended. *)
Record Drain := mkDrain {
  drain_frames : list Frame;
  drain_all : list string;
  drain_queue_left : list string;
  drain_ended : bool
}.

(** The loop [while not WS_SUB_QUEUE.empty()]: [sends] tells, for each
    [ws.send] of the loop in turn, whether it got through; when the sends
    that are told run out before the queue is empty, the loop has not
    ended. *)
Fixpoint drain_queue (sends : list bool) (all queue : list string) : Drain :=
  match queue with
  | [] => mkDrain [] all [] true
  | new_sym :: waiting =>
      match sends with
      | [] => mkDrain [] all queue false
      | sent :: sends =>
          let all :=
            if bool_decide (new_sym ∈ all) then all else all ++ [new_sym] in
          if sent
          then
            let rest := drain_queue sends all waiting in
            mkDrain (SubTicker new_sym :: drain_frames rest) (drain_all rest)
                    (drain_queue_left rest) (drain_ended rest)
          else drain_queue sends all (waiting ++ [new_sym])
      end
  end.

(** A decoded message: the keys of the dict that the loop looks at. *)
Record Push := mkPush {
  ping : option Z;
  channel : option string;
  data : option Ticker
}.

(** A message of the stream: text that [json.loads] rejects, or a dict. *)
Inductive Message :=
| Undecodable
| Decoded (d : Push).

(** What one round of [async for message in ws] leaves. *)
Record Round := mkRound {
  round_state : State;
  round_catalog : Catalog;
  round_frames : list Frame;
  round_alert : option Alert;
  round_ended : bool
}.

(** One round of [async for message in ws], with the pong taken to be
    sent.  A ping is answered and nothing else is done; any other dict is
    handed to the detector when it is a ticker push, and the queue is
    drained afterwards. *)
Definition on_message (reg : Registry) (now : datetime) (sends : list bool)
    (message : Message) (st : State) (cat : Catalog) : Round :=
  match message with
  | Undecodable => mkRound st cat [] None true
  | Decoded d =>
      match ping d with
      | Some n => mkRound st cat [Pong n] None true
      | None =>
          let result :=
            match channel d, data d with
            | Some name, Some ticker_data =>
                if String.eqb name "push.ticker"
                then process_ticker reg now ticker_data st
                else (st, None)
            | _, _ => (st, None)
            end in
          match WS_SUB_QUEUE cat with
          | None => mkRound result.1 cat [] result.2 true
          | Some queue =>
              let drained := drain_queue sends (ALL_SYMBOLS cat) queue in
              mkRound result.1
                      (mkCatalog (KNOWN_SYMBOLS cat) (drain_all drained)
                                 (Some (drain_queue_left drained)))
                      (drain_frames drained) result.2 (drain_ended drained)
          end
      end
  end.

(** * Vocabulary of the statements *)

(** A sample the detector processes for [sym]: it names the symbol, its
    price is positive and its turnover reaches the liquidity floor. *)
Definition valid_sample (ticker_data : Ticker) (sym : string) : Prop :=
  symbol ticker_data = Some sym ∧ sym ≠ ""%string ∧
  (0 < price ticker_data)%Q ∧
  (MIN_VOL_THRESHOLD <= turnover_usdt ticker_data)%Q.

(** Every stored base price and last price is positive; an extremum
    tracker exists only for a symbol with a base price, and a time of last
    significant change only for a symbol with a tracker. *)
Record wf (st : State) : Prop := mk_wf {
  wf_base : ∀ s b, BASE_PRICES st !! s = Some b → (0 < b)%Q;
  wf_last : ∀ s i, LAST_PRICES st !! s = Some i → (0 < lp_price i)%Q;
  wf_max : ∀ s, is_Some (MAX_CHANGES st !! s) → is_Some (BASE_PRICES st !! s);
  wf_sig : ∀ s, is_Some (LAST_SIGNIFICANT_CHANGE st !! s) →
                is_Some (MAX_CHANGES st !! s)
}.

(** The states the process can be in: it starts with empty dictionaries,
    and only [process_ticker] and [job_reset_base_prices] write them. *)
Inductive reachable : State → Prop :=
| reach_init : reachable initial_state
| reach_ticker reg now ticker_data st :
    reachable st → reachable (process_ticker reg now ticker_data st).1
| reach_job now st :
    reachable st → reachable (job_reset_base_prices now st).

(** [sym] is on the mute list of [chat_id]. *)
Definition muted_for (reg : Registry) (chat_id : Z) (sym : string) : Prop :=
  ∃ coins, MUTED_COINS reg !! chat_id = Some coins ∧ sym ∈ coins.

(** The three reasons for which the subscriber loop skips [chat_id]. *)
Definition skipped (reg : Registry) (chat_id : Z) (sym : string) (a : Q) : Prop :=
  muted_for reg chat_id sym
  ∨ (ALERT_MODE reg !! chat_id = Some 2 ∧ ¬ ((3 <= a)%Q ∧ (a <= 5)%Q))
  ∨ (ALERT_MODE reg !! chat_id = Some 3 ∧ (a < 10)%Q).

(** The last alert of [sym] is missing or more than 300 seconds old. *)
Definition alert_absent_or_old (now : datetime) (st : State) (sym : string) : Prop :=
  ALERTED_SYMBOLS st !! sym = None
  ∨ ∃ t, ALERTED_SYMBOLS st !! sym = Some t ∧ 300 * 1000000 < now - t.

(** The sample sets a new extremum: a tracker exists and the absolute
    change exceeds the stored one. *)
Definition new_extremum (st : State) (sym : string) (pc : Q) : Prop :=
  ∃ m, MAX_CHANGES st !! sym = Some m ∧ (Qabs (max_pct m) < Qabs pc)%Q.

(** The reset decided by [should_reset_base]. *)
Definition reset_by_decision (now : datetime) (s : string) (p b : Q)
    (st : State) : bool :=
  should_reset_base s (Qabs (change_pct p b)) now
    (track_max_change s (change_pct p b) now st).

(** The reset that follows the dispatch of an extreme alert. *)
Definition reset_after_extreme (reg : Registry) (s : string) (p b : Q) : bool :=
  qualifies (change_pct p b)
  && match build_tasks reg s (Qabs (change_pct p b)) with
     | [] => false
     | _ :: _ => true
     end
  && Py.ge (Qabs (change_pct p b)) EXTREME_THRESHOLD.

(** The resets that can hit a sample that has just written the tracker:
    a change below 1.5, or an extreme alert with at least one send task. *)
Definition same_sample_reset (reg : Registry) (sym : string) (pc : Q) : Prop :=
  (Qabs pc < 1.5)%Q
  ∨ ((10 <= Qabs pc)%Q ∧ build_tasks reg sym (Qabs pc) ≠ []).

(** ** Scenarios *)

Definition BTC : string := "BTC_USDT".

(** A liquid ticker of [BTC] at price [p]. *)
Definition sample (p : Q) : Ticker :=
  mkTicker (Some BTC) (Some p) (Some 250000%Q) None.

(** A ticker of [BTC] below the liquidity floor. *)
Definition thin_sample : Ticker :=
  mkTicker (Some BTC) (Some 100%Q) (Some 5000%Q) None.

Definition seconds (n : Z) : datetime := n * 1000000.

(** No channel and no subscriber. *)
Definition no_recipients : Registry := mkRegistry None ∅ ∅ ∅.

(** A channel and three subscribers: 7 has no mode entry and mutes
    [ETH_USDT], 8 is in mode 2, 9 in mode 3. *)
Definition demo_registry : Registry :=
  mkRegistry (Some "@alerts"%string) {[7; 8; 9]}
             (<[8 := 2]> (<[9 := 3]> ∅))
             (<[7 := {["ETH_USDT"%string]}]> ∅).

(** The state after a first sample at 100, then 102 a second later, then
    102.5 another second later. *)
Definition after_first : State :=
  (process_ticker no_recipients (seconds 0) (sample 100) initial_state).1.
Definition after_second : State :=
  (process_ticker no_recipients (seconds 1) (sample 102) after_first).1.
Definition after_third : State :=
  (process_ticker no_recipients (seconds 2) (sample 102.5) after_second).1.

(** The alert of a sample at price [p] against the base price 100, as
    dispatched under the registry [reg]. *)
Definition demo_alert (reg : Registry) (p : Q) : Alert :=
  mkAlert (fmt_alert BTC 100 p (change_pct p 100))
          (build_tasks reg BTC (Qabs (change_pct p 100))).

(** No channel, and one subscriber in mode 2. *)
Definition moderate_only_registry : Registry :=
  mkRegistry None {[8]} (<[8 := 2]> ∅) ∅.

(** [demo_registry] after chat 42 ran [/subscribe], with no admin
    configured. *)
Definition subscribed_registry : Registry :=
  cmd_subscribe ∅ 42 42 demo_registry.

(** ** Vocabulary of the further properties *)

(** The user may run the commands behind [admin_only]. *)
Definition authorized (ADMIN_IDS : gset Z) (user_id : Z) : Prop :=
  ADMIN_IDS = ∅ ∨ user_id ∈ ADMIN_IDS.


(** What [upper] makes of an ASCII letter. *)
Definition upper_ascii (c : ascii) : ascii :=
  let n := nat_of_ascii c in
  if (97 <=? n)%nat && (n <=? 122)%nat then ascii_of_nat (n - 32) else c.

(** [str.upper] on a word of ASCII characters without blanks around it,
    on which [str.strip] changes nothing. *)
Fixpoint upper_word (s : string) : string :=
  match s with
  | EmptyString => EmptyString
  | String c rest => String (upper_ascii c) (upper_word rest)
  end.

(** A run of ticker messages for [sym], all valid, each within 1.5% of
    the price before it, starting from the price [previous]. *)
Fixpoint small_steps (sym : string) (previous : Q)
    (messages : list (datetime * Ticker)) : Prop :=
  match messages with
  | [] => True
  | (_, ticker_data) :: rest =>
      valid_sample ticker_data sym ∧
      (Qabs (change_pct (price ticker_data) previous) < 1.5)%Q ∧
      small_steps sym (price ticker_data) rest
  end.

(** The price of the last message of a run, or [previous] for an empty
    run. *)
Fixpoint final_price (previous : Q) (messages : list (datetime * Ticker)) : Q :=
  match messages with
  | [] => previous
  | (_, ticker_data) :: rest => final_price (price ticker_data) rest
  end.

(** The entries of [other] in the five dictionaries agree. *)
Definition same_entries (other : string) (a b : State) : Prop :=
  LAST_PRICES a !! other = LAST_PRICES b !! other ∧
  BASE_PRICES a !! other = BASE_PRICES b !! other ∧
  ALERTED_SYMBOLS a !! other = ALERTED_SYMBOLS b !! other ∧
  MAX_CHANGES a !! other = MAX_CHANGES b !! other ∧
  LAST_SIGNIFICANT_CHANGE a !! other = LAST_SIGNIFICANT_CHANGE b !! other.

(** The items of a reply that is a JSON dict, the only reply that makes
    [fetch_json] return. *)
Definition dict_answer (r : Reply) : option (list (string * Json)) :=
  match r with
  | Answered (JObject items) => Some items
  | _ => None
  end.

(** The seconds slept in all. *)
Definition total_sleep (sleeps : list Q) : Q := foldr Qplus 0%Q sleeps.

(** The elements [get_all_contracts] iterates over. *)
Definition payload_elements (data : Json) : list Json :=
  match data with
  | JObject _ => [data]
  | JArray elements => elements
  | _ => []
  end.

(** The contract is settled in USDT and its state is 0 (or [False], which
    Python takes for 0). *)
Definition active_usdt (c : list (string * Json)) : Prop :=
  dict_get "settleCoin" c = Some (JString "USDT") ∧
  ((∃ x, dict_get "state" c = Some (JNumber x) ∧ (x == 0)%Q)
   ∨ dict_get "state" c = Some (JBool false)).

(** The listing job has somebody to notify: a subscriber or a channel. *)
Definition has_recipient (reg : Registry) : Prop :=
  SUBSCRIBERS reg ≠ ∅ ∨ Py.truthy (CHANNEL_ID reg) = true.

(** ** Scenarios of the further properties *)

(** The admins of the scenarios: users 1 and 2. *)
Definition admins : gset Z := {[1; 2]}.

(** A run of three samples of [BTC], each about 1% above the one before
    it. *)
Definition drift : list (datetime * Ticker) :=
  [(seconds 1, sample 101); (seconds 2, sample 102); (seconds 3, sample 103)].

(** A contract of the payload of [/api/v1/contract/detail]. *)
Definition contract (sym settle : string) (state : Q) : Json :=
  JObject [("symbol"%string, JString sym);
           ("settleCoin"%string, JString settle);
           ("state"%string, JNumber state)].

(** Two active USDT contracts, one settled in USD and one delisted. *)
Definition demo_payload : Json :=
  JArray [contract BTC "USDT" 0; contract "ETH_USDT" "USDT" 0;
          contract "BTC_USD" "USD" 0; contract "LUNA_USDT" "USDT" 1].

(** A payload with a string among the contracts. *)
Definition spoiled_payload : Json :=
  JArray [contract BTC "USDT" 0; JString "maintenance"].

(** A server that answers every request with [data]. *)
Definition answering (data : Json) (i : nat) : Reply :=
  Answered (JObject [("success"%string, JBool true); ("data"%string, data)]).

(** A server that answers with status 429, then fails, then answers. *)
Definition flaky_reply (i : nat) : Reply :=
  match i with
  | O => TooManyRequests
  | S O => RequestFailed
  | _ => answering demo_payload i
  end.

(** A server that answers every request with status 429. *)
Definition busy_reply (i : nat) : Reply := TooManyRequests.

(** A server whose requests all fail. *)
Definition failing_reply (i : nat) : Reply := RequestFailed.

(** Every random wait lasts half a second. *)
Definition half_second (i : nat) : Q := 0.5.

(** [BTC] is known and subscribed, and a session has created the queue. *)
Definition demo_catalog : Catalog := mkCatalog {[BTC]} [BTC] (Some []).

(** [BTC] is known from the data file, the catalog was never loaded and
    no session has created the queue. *)
Definition cold_catalog : Catalog := mkCatalog {[BTC]} [] None.

(** What the exchange lists once [ETH_USDT] has been added. *)
Definition listed_now : list string := [BTC; "ETH_USDT"%string].

(** A ticker push of [BTC] at price [p]. *)
Definition ticker_push (p : Q) : Push :=
  mkPush None (Some "push.ticker"%string) (Some (sample p)).

(** * Properties *)

(** ** Comparisons *)

Lemma Py_le_iff (a b : Q) : Py.le a b = true ↔ (a <= b)%Q.
Proof. apply Qle_bool_iff. Qed.

Lemma Py_lt_iff (a b : Q) : Py.lt a b = true ↔ (a < b)%Q.
Proof.
  unfold Py.lt. rewrite negb_true_iff. split.
  - intros H. apply Qnot_le_lt. intros Hle.
    apply Qle_bool_iff in Hle. congruence.
  - intros H. destruct (Qle_bool b a) eqn:E; [|done].
    apply Qle_bool_iff in E. exfalso. exact (Qlt_not_le _ _ H E).
Qed.

Lemma Py_le_false (a b : Q) : Py.le a b = false ↔ (b < a)%Q.
Proof.
  rewrite <- Py_lt_iff. unfold Py.lt, Py.le.
  destruct (Qle_bool a b); simpl; split; congruence.
Qed.

Lemma Py_lt_false (a b : Q) : Py.lt a b = false ↔ (b <= a)%Q.
Proof.
  rewrite <- Py_le_iff. unfold Py.lt, Py.le.
  destruct (Qle_bool b a); simpl; split; congruence.
Qed.

Lemma Py_eq_pos (a : Q) : (0 < a)%Q → Py.eq a 0 = false.
Proof.
  intros H. unfold Py.eq. destruct (Qeq_bool a 0) eqn:E; [|done].
  apply Qeq_bool_iff in E. rewrite E in H. exfalso. exact (Qlt_irrefl _ H).
Qed.

Lemma qualifies_iff (pc : Q) :
  qualifies pc = true ↔ (3 <= pc)%Q ∨ (pc <= -3)%Q.
Proof.
  unfold qualifies, Py.ge, PUMP_THRESHOLD, DUMP_THRESHOLD.
  rewrite orb_true_iff, !Py_le_iff. done.
Qed.

Lemma total_seconds_gt_iff (a b : datetime) (n : Z) :
  total_seconds_gt a b n = true ↔ n * 1000000 < a - b.
Proof. unfold total_seconds_gt. apply Z.ltb_lt. Qed.

(** ** Validity of a sample *)

Lemma valid_sample_not_rejected ticker_data sym :
  valid_sample ticker_data sym → rejected ticker_data = false.
Proof.
  intros (_ & _ & Hp & Hv). unfold rejected.
  apply orb_false_iff. split.
  - by apply Py_le_false.
  - by apply Py_lt_false.
Qed.

Lemma valid_sample_truthy ticker_data sym :
  valid_sample ticker_data sym → Py.truthy (symbol ticker_data) = true.
Proof. intros (-> & Hne & _). by destruct sym. Qed.

(** ** The invariant of the detector state *)

Lemma wf_initial : wf initial_state.
Proof.
  split; simpl; intros *; rewrite ?lookup_empty; try done;
    intros [? ?]; done.
Qed.

Ltac map_cases s s' :=
  destruct (decide (s = s')) as [->|?];
  [rewrite ?lookup_insert_eq | rewrite ?lookup_insert_ne by done].

Section Invariant.

(** The setters and the steps of the detector keep a well-formed state
    well formed. *)
Context (st : State) (Hwf : wf st).

Lemma wf_set_last s p t :
  (0 < p)%Q →
  wf (set_LAST_PRICES (<[s := mkLastPrice p t]> (LAST_PRICES st)) st).
Proof.
  destruct Hwf as [Hb Hl Hm Hs]. intros Hp. split; simpl; try done.
  intros s' i. map_cases s s'; [|by apply Hl].
  by intros [= <-].
Qed.

Lemma wf_set_base s p :
  (0 < p)%Q →
  wf (set_BASE_PRICES (<[s := p]> (BASE_PRICES st)) st).
Proof.
  destruct Hwf as [Hb Hl Hm Hs]. intros Hp. split; simpl; try done.
  - intros s' b. map_cases s s'; [|by apply Hb]. by intros [= <-].
  - intros s' H. map_cases s s'; [done|by apply Hm].
Qed.

Lemma wf_set_alerted m : wf (set_ALERTED_SYMBOLS m st).
Proof. destruct Hwf as [Hb Hl Hm Hs]. by split. Qed.

Lemma wf_track s pc t :
  is_Some (BASE_PRICES st !! s) → wf (track_max_change s pc t st).
Proof.
  destruct Hwf as [Hb Hl Hm Hs]. intros Hbs. unfold track_max_change.
  destruct (MAX_CHANGES st !! s) as [m|] eqn:E.
  - destruct (Py.gt _ _); [|by split].
    split; simpl; try done.
    + intros s'. map_cases s s'; [done|by apply Hm].
    + intros s'. map_cases s s'; [done|by apply Hs].
  - split; simpl; try done.
    + intros s'. map_cases s s'; [done|by apply Hm].
    + intros s' H. map_cases s s'; [done|by apply Hs].
Qed.

Lemma wf_reset_base s p t :
  (0 < p)%Q → wf (reset_base s p t st).
Proof.
  destruct Hwf as [Hb Hl Hm Hs]. intros Hp. unfold reset_base.
  split; simpl; try done.
  - intros s' b. map_cases s s'; [|by apply Hb]. by intros [= <-].
  - intros s'. map_cases s s'; [done|by apply Hm].
  - intros s' H. map_cases s s'; [done|by apply Hs].
Qed.

End Invariant.

Create HintDb wf_db.
#[local] Hint Resolve wf_set_last wf_set_base wf_set_alerted wf_track
  wf_reset_base : wf_db.

Lemma base_track s pc t st :
  BASE_PRICES (track_max_change s pc t st) = BASE_PRICES st.
Proof.
  unfold track_max_change. destruct (MAX_CHANGES st !! s); [|done].
  by destruct (Py.gt _ _).
Qed.

Lemma wf_detect reg now s p b st :
  wf st → (0 < p)%Q → is_Some (BASE_PRICES st !! s) →
  wf (detect reg now s p b st).1.
Proof.
  intros Hwf Hp Hbs. unfold detect.
  set (st2 := track_max_change _ _ _ _).
  assert (wf st2) as H2 by (subst st2; auto with wf_db).
  set (st3 := if should_reset_base _ _ _ _ then _ else _).
  assert (wf st3) as H3.
  { subst st3. destruct (should_reset_base _ _ _ _); auto with wf_db. }
  destruct (negb _); [done|].
  destruct (build_tasks _ _ _); [|destruct (Py.ge _ _)];
    cbn [fst]; auto with wf_db.
Qed.

Lemma wf_process_ticker reg now ticker_data st :
  wf st → wf (process_ticker reg now ticker_data st).1.
Proof.
  intros Hwf. unfold process_ticker.
  destruct (negb _); [done|].
  destruct (symbol ticker_data) as [s|]; [|done].
  destruct (rejected ticker_data) eqn:Hrej; [done|].
  apply orb_false_iff in Hrej as [Hp _]. apply Py_le_false in Hp.
  pose proof (wf_set_last st Hwf s (price ticker_data) now Hp) as Hwf1.
  set (st1 := set_LAST_PRICES _ _) in *.
  destruct (BASE_PRICES st1 !! s) as [b|] eqn:Hb; cbn [fst].
  - destruct (Py.eq b 0); [done|].
    apply wf_detect; [done|done|]. by rewrite Hb.
  - auto with wf_db.
Qed.

Lemma reset_one_alerted now st item :
  ALERTED_SYMBOLS (reset_one now st item) = ALERTED_SYMBOLS st.
Proof.
  destruct item as [s i]. simpl. by destruct (no_recent_alert _ _).
Qed.

Lemma wf_reset_one now st item :
  wf st → (0 < lp_price item.2)%Q → wf (reset_one now st item).
Proof.
  intros Hwf Hp. destruct item as [s i]. simpl in *.
  destruct (no_recent_alert _ _); auto with wf_db.
Qed.

Lemma wf_reset_loop now items st :
  wf st → Forall (λ item, (0 < lp_price item.2)%Q) items →
  wf (foldl (reset_one now) st items).
Proof.
  intros Hwf Hall. revert st Hwf.
  induction Hall as [|item items Hp _ IH]; intros st Hwf; simpl; [done|].
  apply IH. by apply wf_reset_one.
Qed.

Lemma wf_job now st : wf st → wf (job_reset_base_prices now st).
Proof.
  intros Hwf. apply wf_reset_loop; [done|].
  apply Forall_forall. intros [s i] Hin.
  apply elem_of_map_to_list in Hin. simpl.
  by apply (wf_last st Hwf s).
Qed.

Lemma reachable_wf st : reachable st → wf st.
Proof.
  induction 1 as [|reg now td st _ IH|now st _ IH].
  - apply wf_initial.
  - by apply wf_process_ticker.
  - by apply wf_job.
Qed.

(** ** Unfolding the detector *)

Lemma process_ticker_tracking reg now ticker_data st sym base :
  valid_sample ticker_data sym →
  BASE_PRICES st !! sym = Some base → (0 < base)%Q →
  process_ticker reg now ticker_data st =
  detect reg now sym (price ticker_data) base
    (set_LAST_PRICES
       (<[sym := mkLastPrice (price ticker_data) now]> (LAST_PRICES st)) st).
Proof.
  intros Hv Hb Hpos. unfold process_ticker.
  rewrite (valid_sample_truthy _ _ Hv), (valid_sample_not_rejected _ _ Hv).
  destruct Hv as (-> & _). cbn [negb set_LAST_PRICES BASE_PRICES].
  by rewrite Hb, (Py_eq_pos _ Hpos).
Qed.

Lemma detect_alert reg now s p b st :
  (detect reg now s p b st).2 =
  if qualifies (change_pct p b)
  then Some (mkAlert (fmt_alert s b p (change_pct p b))
                     (build_tasks reg s (Qabs (change_pct p b))))
  else None.
Proof.
  unfold detect. destruct (qualifies _); [|done]. cbn [negb].
  destruct (build_tasks _ _ _); [done|]. by destruct (Py.ge _ _).
Qed.

Lemma detect_alerted reg now s p b st :
  qualifies (change_pct p b) = true →
  ALERTED_SYMBOLS (detect reg now s p b st).1 !! s = Some now.
Proof.
  intros Hq. unfold detect. rewrite Hq. cbn [negb].
  destruct (build_tasks _ _ _); [apply lookup_insert_eq|].
  destruct (Py.ge _ _); apply lookup_insert_eq.
Qed.

Lemma severity_fmt_alert s b p pc :
  severity (fmt_alert s b p pc) =
  if Py.ge (Qabs pc) EXTREME_THRESHOLD then EXTREME else MODERATE.
Proof. unfold fmt_alert, severity. by destruct (Py.ge _ _). Qed.

Lemma last_prices_track s pc t st :
  LAST_PRICES (track_max_change s pc t st) = LAST_PRICES st.
Proof.
  unfold track_max_change. destruct (MAX_CHANGES st !! s); [|done].
  by destruct (Py.gt _ _).
Qed.

Lemma last_prices_detect reg now s p b st :
  LAST_PRICES (detect reg now s p b st).1 = LAST_PRICES st.
Proof.
  unfold detect.
  destruct (should_reset_base _ _ _ _); destruct (negb _);
    try destruct (build_tasks _ _ _); try destruct (Py.ge _ _);
    cbn; apply last_prices_track.
Qed.

(** Every valid sample is recorded as the last observed price of its
    symbol. *)
Lemma last_price_recorded reg now ticker_data st sym :
  valid_sample ticker_data sym →
  LAST_PRICES (process_ticker reg now ticker_data st).1 !! sym
  = Some (mkLastPrice (price ticker_data) now).
Proof.
  intros Hv. unfold process_ticker.
  rewrite (valid_sample_truthy _ _ Hv), (valid_sample_not_rejected _ _ Hv).
  destruct Hv as (-> & _). cbn [negb set_LAST_PRICES BASE_PRICES].
  destruct (BASE_PRICES st !! sym) as [b|]; [|cbn; apply lookup_insert_eq].
  destruct (Py.eq b 0); [cbn; apply lookup_insert_eq|].
  rewrite last_prices_detect. cbn. apply lookup_insert_eq.
Qed.

(** ** Rejected samples (C6) *)

(** C6. A sample whose price is not positive or whose turnover is below
    100000 is rejected: [process_ticker] returns the state it was given,
    with every dictionary (last prices, base prices, extremum trackers,
    times of last significant change, times of last alert) untouched, and
    no alert. *)
Theorem rejected_sample_is_ignored reg now ticker_data st :
  (price ticker_data <= 0)%Q ∨ (turnover_usdt ticker_data < 100000)%Q →
  process_ticker reg now ticker_data st = (st, None).
Proof.
  intros H. unfold process_ticker.
  destruct (negb _); [done|].
  destruct (symbol ticker_data); [|done].
  assert (rejected ticker_data = true) as ->; [|done].
  unfold rejected. apply orb_true_iff.
  destruct H as [H|H]; [left; by apply Py_le_iff|right; by apply Py_lt_iff].
Qed.

(** ** The first valid sample (C7) *)

(** C7. For a symbol without a base price, the first valid sample stores
    its price as the base price and produces no alert, whatever the
    price. *)
Theorem first_valid_sample_sets_base reg now ticker_data st sym :
  valid_sample ticker_data sym →
  BASE_PRICES st !! sym = None →
  BASE_PRICES (process_ticker reg now ticker_data st).1 !! sym
    = Some (price ticker_data) ∧
  (process_ticker reg now ticker_data st).2 = None.
Proof.
  intros Hv Hb. unfold process_ticker.
  rewrite (valid_sample_truthy _ _ Hv), (valid_sample_not_rejected _ _ Hv).
  destruct Hv as (-> & _). cbn [negb set_LAST_PRICES BASE_PRICES].
  rewrite Hb. cbn. by rewrite lookup_insert_eq.
Qed.

(** ** The alert decision (C1) *)

(** C1. For a valid sample of a symbol that has a base price, in any
    reachable state: an alert is produced exactly when the change is at
    least 3 or at most -3; its text is the extreme one when the absolute
    change is at least 10 and the moderate one otherwise; the time of the
    alert is recorded; and the outcome does not depend on the recorded
    alert times, so nothing suppresses a repeated alert. *)
Theorem alert_iff_threshold reg now ticker_data st sym base :
  reachable st →
  valid_sample ticker_data sym →
  BASE_PRICES st !! sym = Some base →
  let pc := change_pct (price ticker_data) base in
  let result := process_ticker reg now ticker_data st in
  (is_Some result.2 ↔ (3 <= pc)%Q ∨ (pc <= -3)%Q) ∧
  (∀ alert, result.2 = Some alert →
     ((10 <= Qabs pc)%Q → severity (msg alert) = EXTREME) ∧
     ((Qabs pc < 10)%Q → severity (msg alert) = MODERATE) ∧
     ALERTED_SYMBOLS result.1 !! sym = Some now) ∧
  (∀ alerted,
     (process_ticker reg now ticker_data (set_ALERTED_SYMBOLS alerted st)).2
     = result.2).
Proof.
  intros Hr Hv Hb pc result.
  assert (0 < base)%Q as Hpos by exact (wf_base st (reachable_wf st Hr) sym base Hb).
  subst result.
  rewrite (process_ticker_tracking _ _ _ _ _ _ Hv Hb Hpos).
  split; [|split].
  - rewrite detect_alert. fold pc. rewrite <- qualifies_iff.
    destruct (qualifies pc); split; intros H; try done.
  - intros alert Ha. rewrite detect_alert in Ha. fold pc in Ha.
    destruct (qualifies pc) eqn:Hq; [|done].
    injection Ha as <-. cbn [msg]. rewrite severity_fmt_alert.
    split; [|split].
    + intros H. apply Py_le_iff in H. unfold Py.ge, EXTREME_THRESHOLD.
      by rewrite H.
    + intros H. apply Py_le_false in H. unfold Py.ge, EXTREME_THRESHOLD.
      by rewrite H.
    + by apply detect_alerted.
  - intros alerted.
    rewrite (process_ticker_tracking _ _ _ (set_ALERTED_SYMBOLS alerted st)
               _ _ Hv Hb Hpos).
    by rewrite !detect_alert.
Qed.

(** ** Dispatch filters (C3, C10) *)

Lemma is_muted_iff reg chat_id sym :
  is_muted reg chat_id sym = true ↔ muted_for reg chat_id sym.
Proof.
  unfold is_muted, muted_for. destruct (MUTED_COINS reg !! chat_id) as [coins|].
  - rewrite bool_decide_eq_true. split; [eauto|].
    by intros (? & [= <-] & ?).
  - split; [done|]. by intros (? & ? & _).
Qed.

Lemma subscriber_gets_iff reg sym a chat_id :
  subscriber_gets reg sym a chat_id = true ↔ ¬ skipped reg chat_id sym a.
Proof.
  unfold subscriber_gets, skipped, alert_mode.
  destruct (is_muted reg chat_id sym) eqn:Hm.
  { apply is_muted_iff in Hm. split; [done|]. intros H. destruct H. by left. }
  assert (¬ muted_for reg chat_id sym) as Hnm.
  { intros H. apply is_muted_iff in H. congruence. }
  unfold PUMP_THRESHOLD, MODERATE_MAX, EXTREME_THRESHOLD.
  destruct (ALERT_MODE reg !! chat_id) as [mode|] eqn:Hmode.
  - destruct (mode =? 2) eqn:E2.
    + apply Z.eqb_eq in E2 as ->. cbn [andb Z.eqb Pos.eqb].
      destruct (Py.le 3 a && Py.le a 5) eqn:Hr; cbn [negb].
      * apply andb_true_iff in Hr as [H3 H5].
        apply Py_le_iff in H3, H5. split; [|done].
        intros _ [?|[[_ Hn]|[[=] _]]]; [done|]. by apply Hn.
      * split; [done|]. intros H. destruct H. right; left. split; [done|].
        intros [H3 H5]. apply Py_le_iff in H3, H5.
        by rewrite H3, H5 in Hr.
    + cbn [andb]. apply Z.eqb_neq in E2.
      destruct (mode =? 3) eqn:E3; cbn [andb].
      * apply Z.eqb_eq in E3 as ->.
        destruct (Py.lt a 10) eqn:Hlt.
        -- apply Py_lt_iff in Hlt. split; [done|]. intros H. destruct H.
           by right; right.
        -- apply Py_lt_false in Hlt. split; [|done].
           intros _ [?|[[[=] _]|[_ Hn]]]; [done|].
           exact (Qlt_not_le _ _ Hn Hlt).
      * apply Z.eqb_neq in E3. split; [|done].
        intros _ [?|[[[= ->] _]|[[= ->] _]]]; done.
  - cbn. split; [|done]. intros _ [?|[[[=] _]|[[=] _]]]. done.
Qed.

Lemma chat_in_build_tasks reg sym a chat_id :
  Chat chat_id ∈ build_tasks reg sym a ↔
  chat_id ∈ SUBSCRIBERS reg ∧ ¬ skipped reg chat_id sym a.
Proof.
  unfold build_tasks. rewrite elem_of_app, list_elem_of_fmap.
  rewrite <- subscriber_gets_iff. split.
  - intros [H|(c & [= <-] & H)].
    + destruct (Py.truthy _); [|by apply not_elem_of_nil in H].
      destruct (CHANNEL_ID reg); [|by apply not_elem_of_nil in H].
      apply list_elem_of_singleton in H. done.
    + apply list_elem_of_filter in H as [? H]. by apply elem_of_elements in H.
  - intros [Hin Hg]. right. exists chat_id. split; [done|].
    apply list_elem_of_filter. split; [done|]. by apply elem_of_elements.
Qed.

(** What an alert returned by [process_ticker] is made of. *)
Lemma process_ticker_alert_inv reg now ticker_data st st' alert :
  process_ticker reg now ticker_data st = (st', Some alert) →
  ∃ sym base,
    symbol ticker_data = Some sym ∧ BASE_PRICES st !! sym = Some base ∧
    let pc := change_pct (price ticker_data) base in
    qualifies pc = true ∧
    alert = mkAlert (fmt_alert sym base (price ticker_data) pc)
                    (build_tasks reg sym (Qabs pc)).
Proof.
  unfold process_ticker. destruct (negb _); [done|].
  destruct (symbol ticker_data) as [sym|]; [|done].
  destruct (rejected ticker_data); [done|].
  cbn [set_LAST_PRICES BASE_PRICES].
  destruct (BASE_PRICES st !! sym) as [base|] eqn:Hb; [|done].
  destruct (Py.eq base 0); [done|].
  intros H. exists sym, base. split; [done|]. split; [done|].
  cbv zeta. apply (f_equal snd) in H. cbn [snd] in H.
  rewrite detect_alert in H.
  destruct (qualifies _); [|done]. by injection H as <-.
Qed.

Lemma size_tag_fmt_alert s b p pc : (size_tag (fmt_alert s b p pc)).1 = pc.
Proof. unfold fmt_alert. by destruct (Py.ge (Qabs pc) _). Qed.

(** C3. For an alert that [process_ticker] dispatches and a subscriber
    [chat_id]: the subscriber is skipped when the symbol is on its mute
    list (whatever its mode), when its mode is 2 (3-5% only) and the
    absolute change is outside [3, 5], and when its mode is 3 (10% and
    more only) and the absolute change is below 10; in every other case a
    send task for it is in the dispatch. *)
Theorem subscriber_filter reg now ticker_data st st' alert sym chat_id :
  process_ticker reg now ticker_data st = (st', Some alert) →
  symbol ticker_data = Some sym →
  chat_id ∈ SUBSCRIBERS reg →
  let a := Qabs (size_tag (msg alert)).1 in
  (muted_for reg chat_id sym → Chat chat_id ∉ tasks alert) ∧
  (ALERT_MODE reg !! chat_id = Some 2 → ¬ ((3 <= a)%Q ∧ (a <= 5)%Q) →
     Chat chat_id ∉ tasks alert) ∧
  (ALERT_MODE reg !! chat_id = Some 3 → (a < 10)%Q →
     Chat chat_id ∉ tasks alert) ∧
  (¬ skipped reg chat_id sym a → Chat chat_id ∈ tasks alert).
Proof.
  intros Hp Hsym Hin a.
  apply process_ticker_alert_inv in Hp as (sym' & base & Hsym' & _ & _ & ->).
  assert (sym' = sym) as -> by congruence.
  subst a. cbn [msg tasks]. rewrite size_tag_fmt_alert.
  rewrite !chat_in_build_tasks. unfold skipped.
  repeat split; try done; intros; intros [_ Hn]; apply Hn; eauto.
Qed.

(** [/subscribe] adds the chat to the subscribers and leaves the mode
    dictionary as it is. *)
Lemma cmd_subscribe_keeps_modes ADMIN_IDS user_id chat_id reg :
  ADMIN_IDS = ∅ ∨ user_id ∈ ADMIN_IDS →
  chat_id ∈ SUBSCRIBERS (cmd_subscribe ADMIN_IDS user_id chat_id reg) ∧
  ALERT_MODE (cmd_subscribe ADMIN_IDS user_id chat_id reg) = ALERT_MODE reg.
Proof.
  intros Hok. unfold cmd_subscribe, admin_only.
  assert (chat_id ∈ SUBSCRIBERS (subscribe_body chat_id reg)) as Hin.
  { cbn. apply elem_of_union. left. by apply elem_of_singleton. }
  destruct (bool_decide (ADMIN_IDS = ∅)) eqn:E1; [done|].
  apply bool_decide_eq_false in E1.
  destruct Hok as [Hempty|Hadmin]; [done|].
  by rewrite (bool_decide_eq_true_2 _ Hadmin).
Qed.

(** C10. A subscriber without an entry in the mode dictionary is handled
    as mode 1: every alert that is dispatched, moderate or extreme, has a
    send task for it unless the symbol is on its mute list. *)
Theorem subscriber_without_mode_gets_all reg now ticker_data st st' alert sym chat_id :
  process_ticker reg now ticker_data st = (st', Some alert) →
  symbol ticker_data = Some sym →
  chat_id ∈ SUBSCRIBERS reg →
  ALERT_MODE reg !! chat_id = None →
  alert_mode reg chat_id = 1 ∧
  (Chat chat_id ∈ tasks alert ↔ ¬ muted_for reg chat_id sym).
Proof.
  intros Hp Hsym Hin Hmode. split.
  { unfold alert_mode. by rewrite Hmode. }
  apply process_ticker_alert_inv in Hp as (sym' & base & Hsym' & _ & _ & ->).
  assert (sym' = sym) as -> by congruence.
  cbn [tasks]. rewrite chat_in_build_tasks. unfold skipped. rewrite Hmode.
  split.
  - intros [_ Hn] Hm. apply Hn. by left.
  - intros Hn. split; [done|]. intros [?|[[[=] _]|[[=] _]]]. done.
Qed.

(** ** Reconnection backoff (C8) *)

Lemma reconnect_loop_app d l1 l2 :
  reconnect_loop d (l1 ++ l2) =
  ((reconnect_loop d l1).1 ++ (reconnect_loop (reconnect_loop d l1).2 l2).1,
   (reconnect_loop (reconnect_loop d l1).2 l2).2).
Proof.
  revert d. induction l1 as [|a l1 IH]; intros d; simpl.
  - by destruct (reconnect_loop d l2).
  - destruct (try_block d a) as [d1 raised]. destruct raised.
    + cbn [except_block]. rewrite IH.
      destruct (reconnect_loop (Z.min (d1 * 2) 60) l1) as [s1 f1]. cbn.
      by destruct (reconnect_loop f1 l2).
    + apply IH.
Qed.

Lemma failures_at_cap n :
  reconnect_loop 60 (repeat ConnectFailed n) = (repeat 60 n, 60).
Proof.
  induction n as [|n IH]; [done|].
  cbn [repeat reconnect_loop try_block except_block].
  change (Z.min (60 * 2) 60) with 60. by rewrite IH.
Qed.

Lemma failures_from_5 n :
  reconnect_loop 5 (repeat ConnectFailed (4 + n))
  = ([5; 10; 20; 40] ++ repeat 60 n, 60).
Proof.
  cbn [Nat.add repeat reconnect_loop try_block except_block].
  change (Z.min (5 * 2) 60) with 10. change (Z.min (10 * 2) 60) with 20.
  change (Z.min (20 * 2) 60) with 40. change (Z.min (40 * 2) 60) with 60.
  by rewrite failures_at_cap.
Qed.

Lemma failures_from_10 n :
  reconnect_loop 10 (repeat ConnectFailed (3 + n))
  = ([10; 20; 40] ++ repeat 60 n, 60).
Proof.
  cbn [Nat.add repeat reconnect_loop try_block except_block].
  change (Z.min (10 * 2) 60) with 20.
  change (Z.min (20 * 2) 60) with 40. change (Z.min (40 * 2) 60) with 60.
  by rewrite failures_at_cap.
Qed.

Lemma capped_doubling d k :
  0 < d <= 60 → 1 <= k →
  Z.min (Z.min (d * 2) 60 * k) 60 = Z.min (d * (2 * k)) 60.
Proof.
  intros Hd Hk. destruct (Z.le_gt_cases (d * 2) 60) as [Hle|Hgt].
  - rewrite (Z.min_l (d * 2) 60) by done. f_equal. ring.
  - rewrite (Z.min_r (d * 2) 60) by lia.
    rewrite !Z.min_r; [done|nia|nia].
Qed.

Lemma failures_closed_form n : ∀ d,
  0 < d <= 60 →
  (reconnect_loop d (repeat ConnectFailed n)).1
  = map (λ i, Z.min (d * 2 ^ Z.of_nat i) 60) (seq 0 n).
Proof.
  induction n as [|n IH]; intros d Hd; [done|].
  cbn [repeat reconnect_loop try_block except_block seq map].
  specialize (IH (Z.min (d * 2) 60)).
  destruct (reconnect_loop (Z.min (d * 2) 60) (repeat ConnectFailed n))
    as [sleeps final].
  cbn [fst] in *. f_equal.
  - change (2 ^ Z.of_nat 0) with 1. lia.
  - rewrite IH by lia. rewrite <- seq_shift, map_map.
    apply map_ext. intros i.
    rewrite Nat2Z.inj_succ, Z.pow_succ_r by lia.
    apply capped_doubling; [done|]. pose proof (Z.pow_pos_nonneg 2 (Z.of_nat i)).
    lia.
Qed.

(** C8. After consecutive failures the loop sleeps 5, 10, 20, 40, 60, 60,
    ... seconds: the delay starts at 5, doubles at each failure and stays
    at 60 once it reaches it; the sleep after the [i]-th failure in a row
    is [min (5 * 2^i) 60].  A successful connection puts the delay back
    to 5: whatever happened before it, the failures that follow a
    connection sleep 5, 10, 20, 40, 60, ... again, the first 5 being slept
    when the connection itself breaks with an error. *)
Theorem backoff_sequence :
  (websocket_stream (repeat ConnectFailed 6)).1 = [5; 10; 20; 40; 60; 60] ∧
  (∀ n, (websocket_stream (repeat ConnectFailed n)).1
        = map (λ i, Z.min (5 * 2 ^ Z.of_nat i) 60) (seq 0 n)) ∧
  (∀ n, (websocket_stream (repeat ConnectFailed (4 + n))).1
        = [5; 10; 20; 40] ++ repeat 60 n) ∧
  (∀ before n,
     (websocket_stream
        (before ++ ConnectedThenError :: repeat ConnectFailed (3 + n))).1
     = (websocket_stream before).1 ++ [5; 10; 20; 40] ++ repeat 60 n) ∧
  (∀ before n,
     (websocket_stream
        (before ++ ConnectedThenClosed :: repeat ConnectFailed (4 + n))).1
     = (websocket_stream before).1 ++ [5; 10; 20; 40] ++ repeat 60 n).
Proof.
  unfold websocket_stream. split; [done|]. split; [|split; [|split]].
  - intros n. by apply failures_closed_form.
  - intros n. by rewrite failures_from_5.
  - intros before n. rewrite reconnect_loop_app. cbn [fst]. f_equal.
    cbn [reconnect_loop try_block except_block].
    change (Z.min (5 * 2) 60) with 10.
    by rewrite failures_from_10.
  - intros before n. rewrite reconnect_loop_app. cbn [fst]. f_equal.
    cbn [reconnect_loop try_block].
    by rewrite failures_from_5.
Qed.

(** ** The backup job (C9) *)

Lemma reset_one_base now st item sym :
  BASE_PRICES (reset_one now st item) !! sym =
  if decide (item.1 = sym)
  then (if no_recent_alert now (ALERTED_SYMBOLS st !! sym)
        then Some (lp_price item.2) else BASE_PRICES st !! sym)
  else BASE_PRICES st !! sym.
Proof.
  destruct item as [s i]. cbn [reset_one fst snd].
  destruct (decide (s = sym)) as [->|Hne].
  - destruct (no_recent_alert _ _); [|done]. apply lookup_insert_eq.
  - destruct (no_recent_alert _ _); [|done]. by apply lookup_insert_ne.
Qed.

Lemma reset_loop_alerted now items st :
  ALERTED_SYMBOLS (foldl (reset_one now) st items) = ALERTED_SYMBOLS st.
Proof.
  revert st. induction items as [|item items IH]; intros st; [done|].
  simpl. by rewrite IH, reset_one_alerted.
Qed.

Lemma reset_loop_base now items st sym :
  NoDup items.*1 →
  BASE_PRICES (foldl (reset_one now) st items) !! sym =
  match (list_to_map items : gmap string LastPrice) !! sym with
  | Some info =>
      if no_recent_alert now (ALERTED_SYMBOLS st !! sym)
      then Some (lp_price info) else BASE_PRICES st !! sym
  | None => BASE_PRICES st !! sym
  end.
Proof.
  intros Hnd. revert st.
  induction items as [|[s i] items IH]; intros st; [done|].
  apply NoDup_cons in Hnd as [Hnotin Hnd].
  cbn [foldl list_to_map foldr uncurry]. rewrite (IH Hnd).
  rewrite reset_one_alerted, reset_one_base. cbn [fst snd].
  destruct (decide (s = sym)) as [->|Hne].
  - rewrite lookup_insert_eq.
    by rewrite (not_elem_of_list_to_map_1 _ _ Hnotin).
  - rewrite lookup_insert_ne by done. reflexivity.
Qed.

Lemma job_base now st sym :
  BASE_PRICES (job_reset_base_prices now st) !! sym =
  match LAST_PRICES st !! sym with
  | Some info =>
      if no_recent_alert now (ALERTED_SYMBOLS st !! sym)
      then Some (lp_price info) else BASE_PRICES st !! sym
  | None => BASE_PRICES st !! sym
  end.
Proof.
  unfold job_reset_base_prices.
  rewrite reset_loop_base by apply NoDup_fst_map_to_list.
  by rewrite list_to_map_to_list.
Qed.

Lemma no_recent_alert_iff now st sym :
  no_recent_alert now (ALERTED_SYMBOLS st !! sym) = true
  ↔ alert_absent_or_old now st sym.
Proof.
  unfold no_recent_alert, alert_absent_or_old.
  destruct (ALERTED_SYMBOLS st !! sym) as [t|].
  - rewrite total_seconds_gt_iff. split; [eauto|].
    by intros [[=]|(? & [= <-] & ?)].
  - split; [by left|done].
Qed.

(** C9. One run of the backup job sets the base price of every symbol
    that has a last observed price and whose last alert is missing or
    more than 300 seconds old to that last observed price, and leaves the
    base price of every other symbol as it was. *)
Theorem backup_job_resets_stale now st :
  (∀ sym info,
     LAST_PRICES st !! sym = Some info →
     alert_absent_or_old now st sym →
     BASE_PRICES (job_reset_base_prices now st) !! sym = Some (lp_price info)) ∧
  (∀ sym,
     ¬ (is_Some (LAST_PRICES st !! sym) ∧ alert_absent_or_old now st sym) →
     BASE_PRICES (job_reset_base_prices now st) !! sym = BASE_PRICES st !! sym).
Proof.
  split.
  - intros sym info Hl Ha. rewrite job_base, Hl.
    apply no_recent_alert_iff in Ha. by rewrite Ha.
  - intros sym Hn. rewrite job_base.
    destruct (LAST_PRICES st !! sym) as [info|] eqn:Hl; [|done].
    destruct (no_recent_alert _ _) eqn:Ha; [|done].
    apply no_recent_alert_iff in Ha. destruct Hn. by split.
Qed.

(** ** The state after a tracked sample *)

Lemma track_new_extremum s pc now st m :
  MAX_CHANGES st !! s = Some m → (Qabs (max_pct m) < Qabs pc)%Q →
  MAX_CHANGES (track_max_change s pc now st) !! s = Some (mkMaxChange pc now) ∧
  LAST_SIGNIFICANT_CHANGE (track_max_change s pc now st) !! s = Some now.
Proof.
  intros Hm Hlt. unfold track_max_change. rewrite Hm.
  apply Py_lt_iff in Hlt. unfold Py.gt. rewrite Hlt. cbn.
  by rewrite !lookup_insert_eq.
Qed.

Lemma track_create s pc now st :
  MAX_CHANGES st !! s = None →
  MAX_CHANGES (track_max_change s pc now st) !! s = Some (mkMaxChange pc now) ∧
  LAST_SIGNIFICANT_CHANGE (track_max_change s pc now st)
  = LAST_SIGNIFICANT_CHANGE st.
Proof.
  intros Hm. unfold track_max_change. rewrite Hm. cbn.
  by rewrite lookup_insert_eq.
Qed.

Lemma track_no_extremum s pc now st :
  ¬ new_extremum st s pc →
  LAST_SIGNIFICANT_CHANGE (track_max_change s pc now st)
  = LAST_SIGNIFICANT_CHANGE st.
Proof.
  intros Hn. unfold track_max_change.
  destruct (MAX_CHANGES st !! s) as [m|] eqn:Hm; [|done].
  destruct (Py.gt _ _) eqn:Hgt; [|done].
  apply Py_lt_iff in Hgt. destruct Hn. by exists m.
Qed.

Lemma detect_state reg now s p b st :
  let st' := (detect reg now s p b st).1 in
  let st2 := track_max_change s (change_pct p b) now st in
  let r := reset_by_decision now s p b st || reset_after_extreme reg s p b in
  BASE_PRICES st' !! s = (if r then Some p else BASE_PRICES st !! s) ∧
  MAX_CHANGES st' !! s
    = (if r then Some (mkMaxChange 0 now) else MAX_CHANGES st2 !! s) ∧
  LAST_SIGNIFICANT_CHANGE st' = LAST_SIGNIFICANT_CHANGE st2.
Proof.
  cbv zeta. unfold detect, reset_by_decision, reset_after_extreme.
  set (pc := change_pct p b). set (st2 := track_max_change s pc now st).
  assert (BASE_PRICES st2 = BASE_PRICES st) as Hb by apply base_track.
  destruct (should_reset_base s (Qabs pc) now st2);
    destruct (qualifies pc); cbn [negb andb orb];
    try destruct (build_tasks reg s (Qabs pc)); cbn [andb orb];
    try destruct (Py.ge (Qabs pc) EXTREME_THRESHOLD);
    cbn; rewrite ?lookup_insert_eq, ?Hb; done.
Qed.

(** The alert of a tracked sample carries the base price and the change
    computed before any reset. *)
Lemma alert_uses_old_base reg now ticker_data st sym base alert :
  valid_sample ticker_data sym →
  BASE_PRICES st !! sym = Some base → (0 < base)%Q →
  (process_ticker reg now ticker_data st).2 = Some alert →
  old_price (msg alert) = base ∧
  new_price (msg alert) = price ticker_data ∧
  (size_tag (msg alert)).1 = change_pct (price ticker_data) base.
Proof.
  intros Hv Hb Hpos. rewrite (process_ticker_tracking _ _ _ _ _ _ Hv Hb Hpos).
  rewrite detect_alert. destruct (qualifies _); [|done].
  intros [= <-]. cbn [msg]. rewrite size_tag_fmt_alert.
  unfold fmt_alert. by destruct (Py.ge (Qabs _) _).
Qed.

(** ** The reset of the base price (C2) *)

Lemma last_significant_set_last m st :
  LAST_SIGNIFICANT_CHANGE (set_LAST_PRICES m st) = LAST_SIGNIFICANT_CHANGE st.
Proof. done. Qed.

Lemma new_extremum_set_last m st sym pc :
  new_extremum (set_LAST_PRICES m st) sym pc ↔ new_extremum st sym pc.
Proof. done. Qed.

(** C2, as the code has it.  For a valid sample of a symbol with a base
    price, in any reachable state: if the absolute change is below 1.5, or
    more than 50 seconds have passed since the recorded last significant
    change and the sample does not itself set a new extremum (which would
    move that time to now before the test), then the base price becomes
    the price of the sample and the tracker becomes [{0, now}].  An alert
    produced by the same sample carries the base price and the change
    from before the reset. *)
Theorem base_reset_decision reg now ticker_data st sym base :
  reachable st →
  valid_sample ticker_data sym →
  BASE_PRICES st !! sym = Some base →
  let pc := change_pct (price ticker_data) base in
  let result := process_ticker reg now ticker_data st in
  ((Qabs pc < 1.5)%Q
   ∨ (∃ t, LAST_SIGNIFICANT_CHANGE st !! sym = Some t ∧
           50 * 1000000 < now - t ∧ ¬ new_extremum st sym pc) →
   BASE_PRICES result.1 !! sym = Some (price ticker_data) ∧
   MAX_CHANGES result.1 !! sym = Some (mkMaxChange 0 now)) ∧
  (∀ alert, result.2 = Some alert →
     old_price (msg alert) = base ∧ (size_tag (msg alert)).1 = pc).
Proof.
  intros Hr Hv Hb pc result.
  assert (0 < base)%Q as Hpos by exact (wf_base st (reachable_wf st Hr) sym base Hb).
  split.
  - intros Hcond. subst result.
    rewrite (process_ticker_tracking _ _ _ _ _ _ Hv Hb Hpos).
    set (st1 := set_LAST_PRICES _ st).
    destruct (detect_state reg now sym (price ticker_data) base st1)
      as (HB & HM & _).
    assert (reset_by_decision now sym (price ticker_data) base st1 = true) as Hreset.
    { unfold reset_by_decision, should_reset_base. fold pc.
      destruct (Py.lt (Qabs pc) 1.5) eqn:Hlt; [done|].
      destruct Hcond as [Hsmall|(t & Ht & Hold & Hno)].
      { apply Py_lt_iff in Hsmall. congruence. }
      rewrite track_no_extremum by done.
      subst st1. rewrite last_significant_set_last, Ht.
      apply total_seconds_gt_iff in Hold. by rewrite Hold. }
    rewrite Hreset in HB, HM. cbn [orb] in HB, HM. done.
  - intros alert Ha.
    destruct (alert_uses_old_base _ _ _ _ _ _ _ Hv Hb Hpos Ha) as (? & _ & ?).
    done.
Qed.

(** ** The reset after an extreme alert (C5) *)

Lemma price_positive ticker_data sym :
  valid_sample ticker_data sym → (0 < price ticker_data)%Q.
Proof. by intros (_ & _ & ? & _). Qed.

(** C5, as the code has it.  When a sample produces an extreme alert and
    at least one send task was gathered for it (the channel or a
    subscriber that passes the filters), the base price becomes the price
    of the sample and the tracker becomes [{0, now}] once the dispatch is
    over; an alert of the next sample of the symbol is computed against
    that new base price. *)
Theorem extreme_alert_resets_base reg now ticker_data st sym base alert :
  reachable st →
  valid_sample ticker_data sym →
  BASE_PRICES st !! sym = Some base →
  (process_ticker reg now ticker_data st).2 = Some alert →
  severity (msg alert) = EXTREME →
  tasks alert ≠ [] →
  let st' := (process_ticker reg now ticker_data st).1 in
  BASE_PRICES st' !! sym = Some (price ticker_data) ∧
  MAX_CHANGES st' !! sym = Some (mkMaxChange 0 now) ∧
  (∀ reg' now' ticker_data' alert',
     valid_sample ticker_data' sym →
     (process_ticker reg' now' ticker_data' st').2 = Some alert' →
     old_price (msg alert') = price ticker_data ∧
     (size_tag (msg alert')).1
     = change_pct (price ticker_data') (price ticker_data)).
Proof.
  intros Hr Hv Hb Ha Hsev Htasks st'.
  assert (0 < base)%Q as Hpos by exact (wf_base st (reachable_wf st Hr) sym base Hb).
  assert (BASE_PRICES st' !! sym = Some (price ticker_data) ∧
          MAX_CHANGES st' !! sym = Some (mkMaxChange 0 now)) as [HB HM].
  { subst st'. revert Ha.
    rewrite (process_ticker_tracking _ _ _ _ _ _ Hv Hb Hpos).
    set (st1 := set_LAST_PRICES _ st).
    rewrite detect_alert. intros Ha.
    destruct (qualifies _) eqn:Hq; [|done].
    injection Ha as <-. cbn [msg tasks] in Hsev, Htasks.
    rewrite severity_fmt_alert in Hsev.
    destruct (Py.ge _ EXTREME_THRESHOLD) eqn:Hge; [|done].
    destruct (detect_state reg now sym (price ticker_data) base st1)
      as (HB & HM & _).
    assert (reset_after_extreme reg sym (price ticker_data) base = true) as Hreset.
    { unfold reset_after_extreme. rewrite Hq, Hge.
      by destruct (build_tasks _ _ _). }
    rewrite Hreset, orb_true_r in HB, HM. done. }
  split; [done|]. split; [done|].
  intros reg' now' td' alert' Hv' Ha'.
  destruct (alert_uses_old_base _ _ _ _ _ _ _ Hv' HB
              (price_positive _ _ Hv) Ha') as (? & _ & ?).
  done.
Qed.

(** ** Extremum tracking (C4) *)

Lemma extreme_qualifies pc : (10 <= Qabs pc)%Q → qualifies pc = true.
Proof.
  intros H. apply qualifies_iff. revert H.
  apply Qabs_case; intros; [left|right]; lra.
Qed.

Lemma reset_after_extreme_iff reg s p b :
  reset_after_extreme reg s p b = true ↔
  (10 <= Qabs (change_pct p b))%Q ∧
  build_tasks reg s (Qabs (change_pct p b)) ≠ [].
Proof.
  unfold reset_after_extreme, Py.ge, EXTREME_THRESHOLD.
  rewrite !andb_true_iff, Py_le_iff. split.
  - intros [[_ Ht] Hge]. split; [done|]. by destruct (build_tasks _ _ _).
  - intros [Hge Ht]. split; [split|done].
    + by apply extreme_qualifies.
    + by destruct (build_tasks _ _ _).
Qed.

Lemma reset_by_decision_fresh now s p b st :
  LAST_SIGNIFICANT_CHANGE (track_max_change s (change_pct p b) now st) !! s = None
  ∨ LAST_SIGNIFICANT_CHANGE (track_max_change s (change_pct p b) now st) !! s
    = Some now →
  reset_by_decision now s p b st = true ↔ (Qabs (change_pct p b) < 1.5)%Q.
Proof.
  intros Hsig. unfold reset_by_decision, should_reset_base.
  rewrite <- Py_lt_iff. destruct (Py.lt _ 1.5); [done|].
  destruct Hsig as [-> | ->]; [done|].
  unfold total_seconds_gt. rewrite Z.sub_diag. done.
Qed.

(** C4, as the code has it.  The first valid sample of a symbol creates
    no tracker.  On a later valid sample that writes the tracker in the
    tracking step, because none exists yet or because the absolute change
    exceeds the stored one, the tracker ends as [{change, now}], or as
    [{0, now}] when the base price is reset on the same sample; when the
    sample exceeds a stored extremum the time of the last significant
    change is set to now as well. *)
Theorem extremum_tracking reg now ticker_data st sym :
  reachable st →
  valid_sample ticker_data sym →
  let result := process_ticker reg now ticker_data st in
  (BASE_PRICES st !! sym = None → MAX_CHANGES result.1 !! sym = None) ∧
  (∀ base, BASE_PRICES st !! sym = Some base →
     let pc := change_pct (price ticker_data) base in
     (MAX_CHANGES st !! sym = None ∨ new_extremum st sym pc →
        (¬ same_sample_reset reg sym pc →
           MAX_CHANGES result.1 !! sym = Some (mkMaxChange pc now)) ∧
        (same_sample_reset reg sym pc →
           MAX_CHANGES result.1 !! sym = Some (mkMaxChange 0 now))) ∧
     (new_extremum st sym pc →
        LAST_SIGNIFICANT_CHANGE result.1 !! sym = Some now)).
Proof.
  intros Hr Hv result. pose proof (reachable_wf st Hr) as Hwf. split.
  - intros Hb. subst result. unfold process_ticker.
    rewrite (valid_sample_truthy _ _ Hv), (valid_sample_not_rejected _ _ Hv).
    destruct Hv as (-> & _). cbn [negb set_LAST_PRICES BASE_PRICES].
    rewrite Hb. cbn.
    destruct (MAX_CHANGES st !! sym) eqn:Hm; [|done].
    destruct (wf_max st Hwf sym) as [b Hb']; [by rewrite Hm|congruence].
  - intros base Hb pc.
    assert (0 < base)%Q as Hpos by exact (wf_base st Hwf sym base Hb).
    subst result. rewrite (process_ticker_tracking _ _ _ _ _ _ Hv Hb Hpos).
    set (st1 := set_LAST_PRICES _ st).
    destruct (detect_state reg now sym (price ticker_data) base st1)
      as (_ & HM & HS).
    fold pc in HM, HS. split.
    + intros Hwritten.
      assert (MAX_CHANGES (track_max_change sym pc now st1) !! sym
              = Some (mkMaxChange pc now) ∧
              (LAST_SIGNIFICANT_CHANGE (track_max_change sym pc now st1) !! sym
               = None
               ∨ LAST_SIGNIFICANT_CHANGE (track_max_change sym pc now st1) !! sym
                 = Some now)) as [Hmax Hsig].
      { destruct Hwritten as [Hnone|(m & Hm & Hlt)].
        - destruct (track_create sym pc now st1 Hnone) as [-> ->].
          split; [done|]. left. subst st1. cbn.
          destruct (LAST_SIGNIFICANT_CHANGE st !! sym) eqn:Hs; [|done].
          destruct (wf_sig st Hwf sym) as [m Hm]; [by rewrite Hs|congruence].
        - destruct (track_new_extremum sym pc now st1 m Hm Hlt) as [-> ->].
          split; [done|]. by right. }
      pose proof (reset_by_decision_fresh now sym (price ticker_data) base st1 Hsig)
        as Hdec.
      pose proof (reset_after_extreme_iff reg sym (price ticker_data) base) as Hext.
      fold pc in Hdec, Hext.
      destruct (reset_by_decision _ _ _ _ _ || reset_after_extreme _ _ _ _) eqn:Hreset.
      * split; [|done]. intros Hn. destruct Hn.
        apply orb_true_iff in Hreset as [H|H]; [left; by apply Hdec|right; by apply Hext].
      * split; [by rewrite HM, Hmax|]. intros Hs.
        apply orb_false_iff in Hreset as [H1 H2].
        destruct Hs as [Hs|Hs].
        -- apply Hdec in Hs. congruence.
        -- apply Hext in Hs. congruence.
    + intros (m & Hm & Hlt). rewrite HS.
      by destruct (track_new_extremum sym pc now st1 m Hm Hlt) as [_ ->].
Qed.

(** ** Scenarios *)

Lemma reachable_after_first : reachable after_first.
Proof. apply reach_ticker, reach_init. Defined.

Lemma reachable_after_second : reachable after_second.
Proof. apply reach_ticker, reachable_after_first. Defined.

Lemma reachable_after_third : reachable after_third.
Proof. apply reach_ticker, reachable_after_second. Defined.

Lemma valid_sample_liquid p : (0 < p)%Q → valid_sample (sample p) BTC.
Proof.
  intros Hp. split; [done|]. split; [done|]. split; [done|].
  by vm_compute.
Defined.

(** A rejected sample leaves a populated state alone. *)
Lemma rejected_sample_is_ignored_witness :
  (turnover_usdt thin_sample < 100000)%Q ∧
  process_ticker demo_registry (seconds 5) thin_sample after_third
  = (after_third, None).
Proof.
  assert (turnover_usdt thin_sample < 100000)%Q as H by by vm_compute.
  split; [exact H|].
  apply rejected_sample_is_ignored. right. exact H.
Defined.

(** The first sample at 100 makes 100 the base price, silently. *)
Lemma first_valid_sample_sets_base_witness :
  BASE_PRICES (process_ticker demo_registry (seconds 0) (sample 100)
                 initial_state).1 !! BTC = Some (price (sample 100)) ∧
  (process_ticker demo_registry (seconds 0) (sample 100) initial_state).2 = None.
Proof.
  apply first_valid_sample_sets_base.
  - apply valid_sample_liquid. by vm_compute.
  - reflexivity.
Defined.

(** A move from 100 to 104 raises a moderate alert. *)
Lemma alert_iff_threshold_witness :
  is_Some (process_ticker demo_registry (seconds 1) (sample 104) after_first).2.
Proof.
  assert (valid_sample (sample 104) BTC) as Hv
    by (apply valid_sample_liquid; by vm_compute).
  assert (BASE_PRICES after_first !! BTC = Some 100%Q) as Hb by by vm_compute.
  apply (alert_iff_threshold demo_registry (seconds 1) (sample 104) after_first
           BTC 100%Q reachable_after_first Hv Hb).
  left. by vm_compute.
Defined.

(** Linear arithmetic with the absolute value of [x] taken as an unknown. *)
Ltac lra_abs x :=
  repeat match goal with
         | H : context [Qabs x] |- _ => revert H
         end;
  generalize (Qabs x); intros; lra.

(** The same alert raised again and again: as long as the price stays at
    104 against the base price 100, every sample raises an alert, however
    many there are and however close together. *)
Lemma repeated_alert_step now st :
  BASE_PRICES st !! BTC = Some 100%Q →
  LAST_SIGNIFICANT_CHANGE st !! BTC = None →
  (∀ m, MAX_CHANGES st !! BTC = Some m → (4 <= Qabs (max_pct m))%Q) →
  let result := process_ticker demo_registry now (sample 104) st in
  is_Some result.2 ∧
  BASE_PRICES result.1 !! BTC = Some 100%Q ∧
  LAST_SIGNIFICANT_CHANGE result.1 !! BTC = None ∧
  (∀ m, MAX_CHANGES result.1 !! BTC = Some m → (4 <= Qabs (max_pct m))%Q).
Proof.
  intros Hb Hs Hm result. subst result.
  assert (valid_sample (sample 104) BTC) as Hv
    by (apply valid_sample_liquid; by vm_compute).
  assert (0 < 100)%Q as Hpos by by vm_compute.
  rewrite (process_ticker_tracking _ _ _ _ _ _ Hv Hb Hpos).
  set (st1 := set_LAST_PRICES _ st).
  set (pc := change_pct (price (sample 104)) 100).
  assert (Qabs pc == 4)%Q as Habs by by vm_compute.
  assert (¬ new_extremum st1 BTC pc) as Hno.
  { intros (m & Hm' & Hlt). apply Hm in Hm'. lra_abs pc. }
  pose proof (track_no_extremum BTC pc now st1 Hno) as Hsig.
  destruct (detect_state demo_registry now BTC (price (sample 104)) 100 st1)
    as (HB & HM & HS).
  fold pc in HB, HM, HS.
  assert (reset_by_decision now BTC (price (sample 104)) 100 st1 = false) as Hd.
  { unfold reset_by_decision, should_reset_base. fold pc.
    rewrite Hsig. subst st1. rewrite last_significant_set_last, Hs.
    apply not_true_is_false. intros Hlt.
    destruct (Py.lt (Qabs pc) 1.5) eqn:E; [|done].
    apply Py_lt_iff in E. lra_abs pc. }
  assert (reset_after_extreme demo_registry BTC (price (sample 104)) 100 = false)
    as He.
  { apply not_true_is_false. intros He. apply reset_after_extreme_iff in He as [He _].
    fold pc in He. lra_abs pc. }
  rewrite Hd, He in HB, HM. cbn [orb] in HB, HM.
  split; [|split; [|split]].
  - rewrite detect_alert. fold pc.
    assert (qualifies pc = true) as -> by by vm_compute. done.
  - by rewrite HB.
  - by rewrite HS, Hsig.
  - intros m. rewrite HM. unfold track_max_change.
    destruct (MAX_CHANGES st1 !! BTC) as [m0|] eqn:Hm0.
    + destruct (Py.gt _ _) eqn:Hgt.
      * apply Py_lt_iff in Hgt. destruct Hno. by exists m0.
      * rewrite Hm0. intros [= <-]. by apply Hm.
    + cbn [set_MAX_CHANGES MAX_CHANGES]. rewrite lookup_insert_eq.
      intros [= <-]. cbn [max_pct]. lra_abs pc.
Qed.

Lemma repeated_alerts (times : list datetime) :
  Forall is_Some
    (process_all demo_registry (map (λ now, (now, sample 104)) times)
       after_first).2.
Proof.
  assert (BASE_PRICES after_first !! BTC = Some 100%Q) as Hb by by vm_compute.
  assert (LAST_SIGNIFICANT_CHANGE after_first !! BTC = None) as Hs
    by by vm_compute.
  assert (∀ m, MAX_CHANGES after_first !! BTC = Some m
               → (4 <= Qabs (max_pct m))%Q) as Hm.
  { intros m H. by vm_compute in H. }
  revert Hb Hs Hm. generalize after_first as st.
  induction times as [|now times IH]; intros st Hb Hs Hm; [by constructor|].
  cbn [map process_all].
  destruct (repeated_alert_step now st Hb Hs Hm) as (Ha & Hb' & Hs' & Hm').
  destruct (process_ticker demo_registry now (sample 104) st) as [st' alert].
  specialize (IH st' Hb' Hs' Hm').
  destruct (process_all demo_registry _ st') as [st'' alerts].
  by constructor.
Qed.

(** With a last significant change 60 seconds old and a sample that stays
    under the stored extremum, the base price moves to the sample. *)
Lemma base_reset_decision_witness :
  BASE_PRICES (process_ticker demo_registry (seconds 62) (sample 102.2)
                 after_third).1 !! BTC = Some (price (sample 102.2)) ∧
  MAX_CHANGES (process_ticker demo_registry (seconds 62) (sample 102.2)
                 after_third).1 !! BTC = Some (mkMaxChange 0 (seconds 62)).
Proof.
  assert (valid_sample (sample 102.2) BTC) as Hv
    by (apply valid_sample_liquid; by vm_compute).
  assert (BASE_PRICES after_third !! BTC = Some 100%Q) as Hb by by vm_compute.
  apply (base_reset_decision demo_registry (seconds 62) (sample 102.2)
           after_third BTC 100%Q reachable_after_third Hv Hb).
  right. exists (seconds 2).
  split; [by vm_compute|]. split; [by vm_compute|].
  intros (m & Hm & Hlt). vm_compute in Hm. injection Hm as <-.
  vm_compute in Hlt. discriminate Hlt.
Defined.

(** C2 as stated fails: the last significant change is 60 seconds old
    when a sample at 102.8 arrives, but the sample exceeds the stored
    extremum 2.5, the time of the last significant change moves to now
    before the staleness test, and the base price stays at 100. *)
Lemma stale_reset_counterexample :
  let result :=
    process_ticker no_recipients (seconds 62) (sample 102.8) after_third in
  reachable after_third ∧
  valid_sample (sample 102.8) BTC ∧
  BASE_PRICES after_third !! BTC = Some 100%Q ∧
  LAST_SIGNIFICANT_CHANGE after_third !! BTC = Some (seconds 2) ∧
  50 * 1000000 < seconds 62 - seconds 2 ∧
  BASE_PRICES result.1 !! BTC = Some 100%Q ∧
  BASE_PRICES result.1 !! BTC ≠ Some (price (sample 102.8)) ∧
  MAX_CHANGES result.1 !! BTC ≠ Some (mkMaxChange 0 (seconds 62)).
Proof.
  cbv zeta. split; [apply reachable_after_third|].
  split; [apply valid_sample_liquid; by vm_compute|].
  repeat split; by vm_compute.
Qed.

(** A sample at 102.8 that exceeds the stored extremum 2.5 records the
    time of the last significant change. *)
Lemma extremum_tracking_witness :
  LAST_SIGNIFICANT_CHANGE
    (process_ticker demo_registry (seconds 62) (sample 102.8) after_third).1
  !! BTC = Some (seconds 62).
Proof.
  assert (valid_sample (sample 102.8) BTC) as Hv
    by (apply valid_sample_liquid; by vm_compute).
  assert (BASE_PRICES after_third !! BTC = Some 100%Q) as Hb by by vm_compute.
  destruct (extremum_tracking demo_registry (seconds 62) (sample 102.8)
              after_third BTC reachable_after_third Hv) as [_ Htracked].
  destruct (Htracked 100%Q Hb) as [_ Hsig]. apply Hsig.
  exists (mkMaxChange (change_pct (price (sample 102.5)) 100) (seconds 2)).
  split; by vm_compute.
Defined.

(** C4 as stated fails: the first valid sample leaves the tracker absent
    instead of storing 0, and the second sample, whose absolute change 2
    exceeds 0, records no time of last significant change. *)
Lemma tracker_not_initialised_counterexample :
  valid_sample (sample 100) BTC ∧
  BASE_PRICES initial_state !! BTC = None ∧
  BASE_PRICES after_first !! BTC = Some 100%Q ∧
  MAX_CHANGES after_first !! BTC = None ∧
  valid_sample (sample 102) BTC ∧
  (0 < Qabs (change_pct (price (sample 102)) 100))%Q ∧
  LAST_SIGNIFICANT_CHANGE after_second !! BTC = None.
Proof.
  split; [apply valid_sample_liquid; by vm_compute|].
  do 3 (split; [by vm_compute|]).
  split; [apply valid_sample_liquid; by vm_compute|].
  split; by vm_compute.
Qed.

(** A jump from 100 to 112 is sent to the channel and two subscribers, and
    112 becomes the base price. *)
Lemma extreme_alert_resets_base_witness :
  BASE_PRICES (process_ticker demo_registry (seconds 1) (sample 112)
                 after_first).1 !! BTC = Some (price (sample 112)).
Proof.
  assert (valid_sample (sample 112) BTC) as Hv
    by (apply valid_sample_liquid; by vm_compute).
  assert (BASE_PRICES after_first !! BTC = Some 100%Q) as Hb by by vm_compute.
  assert ((process_ticker demo_registry (seconds 1) (sample 112) after_first).2
          = Some (demo_alert demo_registry 112)) as Ha by by vm_compute.
  assert (severity (msg (demo_alert demo_registry 112)) = EXTREME) as Hsev
    by by vm_compute.
  assert (tasks (demo_alert demo_registry 112) ≠ []) as Ht by by vm_compute.
  apply (extreme_alert_resets_base demo_registry (seconds 1) (sample 112)
           after_first BTC 100%Q _ reachable_after_first Hv Hb Ha Hsev Ht).
Defined.

(** C5 as stated fails: with no channel and a single subscriber in mode
    2, a drop from 100 to 88 produces an extreme alert for which no send
    task is gathered; the base price stays at 100 and the next sample at
    88 is measured against 100 again. *)
Lemma extreme_without_recipients_counterexample :
  let result :=
    process_ticker moderate_only_registry (seconds 1) (sample 88) after_first in
  let next :=
    process_ticker moderate_only_registry (seconds 2) (sample 88) result.1 in
  reachable after_first ∧
  valid_sample (sample 88) BTC ∧
  BASE_PRICES after_first !! BTC = Some 100%Q ∧
  result.2 = Some (demo_alert moderate_only_registry 88) ∧
  severity (msg (demo_alert moderate_only_registry 88)) = EXTREME ∧
  BASE_PRICES result.1 !! BTC = Some 100%Q ∧
  BASE_PRICES result.1 !! BTC ≠ Some (price (sample 88)) ∧
  old_price ∘ msg <$> next.2 = Some 100%Q.
Proof.
  cbv zeta. split; [apply reachable_after_first|].
  split; [apply valid_sample_liquid; by vm_compute|].
  repeat split; by vm_compute.
Qed.

(** A move of 4% is sent to chat 8 (mode 2) and not to chat 9 (mode 3). *)
Lemma subscriber_filter_witness :
  (Chat 9 ∉ tasks (demo_alert demo_registry 104)) ∧
  (Chat 8 ∈ tasks (demo_alert demo_registry 104)).
Proof.
  assert (process_ticker demo_registry (seconds 1) (sample 104) after_first
          = ((process_ticker demo_registry (seconds 1) (sample 104)
                after_first).1, Some (demo_alert demo_registry 104))) as Hp
    by by vm_compute.
  assert (symbol (sample 104) = Some BTC) as Hsym by done.
  assert (9 ∈ SUBSCRIBERS demo_registry) as H9
    by (apply (bool_decide_unpack _); by vm_compute).
  assert (8 ∈ SUBSCRIBERS demo_registry) as H8
    by (apply (bool_decide_unpack _); by vm_compute).
  split.
  - apply (subscriber_filter _ _ _ _ _ _ _ 9 Hp Hsym H9); by vm_compute.
  - apply (subscriber_filter _ _ _ _ _ _ _ 8 Hp Hsym H8).
    intros [(coins & Hc & _)|[[_ Hn]|[Hm _]]].
    + vm_compute in Hc. discriminate Hc.
    + apply Hn. split; by vm_compute.
    + vm_compute in Hm. discriminate Hm.
Defined.

(** Chat 42, subscribed by [/subscribe] and without a mode, is sent an
    extreme alert. *)
Lemma subscriber_without_mode_gets_all_witness :
  ALERT_MODE subscribed_registry !! 42 = None ∧
  Chat 42 ∈ tasks (demo_alert subscribed_registry 112).
Proof.
  assert (process_ticker subscribed_registry (seconds 1) (sample 112) after_first
          = ((process_ticker subscribed_registry (seconds 1) (sample 112)
                after_first).1, Some (demo_alert subscribed_registry 112))) as Hp
    by by vm_compute.
  assert (symbol (sample 112) = Some BTC) as Hsym by done.
  assert (42 ∈ SUBSCRIBERS subscribed_registry) as Hin
    by (apply cmd_subscribe_keeps_modes; by left).
  assert (ALERT_MODE subscribed_registry !! 42 = None) as Hmode by by vm_compute.
  split; [exact Hmode|].
  apply (subscriber_without_mode_gets_all _ _ _ _ _ _ _ 42 Hp Hsym Hin Hmode).
  intros (coins & Hc & _). vm_compute in Hc. discriminate Hc.
Defined.

(** With no alert on record, the job moves the base price of [BTC] from
    100 to the last price 102.5. *)
Lemma backup_job_resets_stale_witness :
  BASE_PRICES after_third !! BTC = Some 100%Q ∧
  BASE_PRICES (job_reset_base_prices (seconds 300) after_third) !! BTC
  = Some 102.5%Q.
Proof.
  split; [by vm_compute|].
  apply (proj1 (backup_job_resets_stale (seconds 300) after_third)
           BTC (mkLastPrice 102.5 (seconds 2))).
  - by vm_compute.
  - left. by vm_compute.
Defined.

(** * Further properties *)

(** ** The admin gate *)

Lemma admin_only_refused ADMIN_IDS func user_id chat_id reg :
  ADMIN_IDS ≠ ∅ → user_id ∉ ADMIN_IDS →
  admin_only ADMIN_IDS func user_id chat_id reg = reg.
Proof.
  intros Hne Hnot. unfold admin_only.
  by rewrite (bool_decide_eq_false_2 _ Hne), (bool_decide_eq_false_2 _ Hnot).
Qed.

Lemma admin_only_allowed ADMIN_IDS func user_id chat_id reg :
  authorized ADMIN_IDS user_id →
  admin_only ADMIN_IDS func user_id chat_id reg = func chat_id reg.
Proof.
  intros Hok. unfold admin_only.
  destruct (bool_decide (ADMIN_IDS = ∅)) eqn:E1; [done|].
  apply bool_decide_eq_false in E1.
  destruct Hok as [Hempty|Hadmin]; [done|].
  by rewrite (bool_decide_eq_true_2 _ Hadmin).
Qed.

(** X1. Once admins are configured, none of the seven commands wrapped
    by [admin_only] has any effect when a non-admin runs it. *)
Theorem non_admin_is_refused ADMIN_IDS upper_strip args user_id chat_id reg :
  ADMIN_IDS ≠ ∅ → user_id ∉ ADMIN_IDS →
  cmd_subscribe ADMIN_IDS user_id chat_id reg = reg ∧
  cmd_unsubscribe ADMIN_IDS user_id chat_id reg = reg ∧
  cmd_mode1 ADMIN_IDS user_id chat_id reg = reg ∧
  cmd_mode2 ADMIN_IDS user_id chat_id reg = reg ∧
  cmd_mode3 ADMIN_IDS user_id chat_id reg = reg ∧
  cmd_mute upper_strip ADMIN_IDS args user_id chat_id reg = reg ∧
  cmd_unmute upper_strip ADMIN_IDS args user_id chat_id reg = reg.
Proof.
  intros Hne Hnot.
  unfold cmd_subscribe, cmd_unsubscribe, cmd_mode1, cmd_mode2, cmd_mode3,
    cmd_mute, cmd_unmute.
  repeat split; by apply admin_only_refused.
Qed.

Lemma muted_for_cmd_start chat_id reg c sym :
  muted_for (cmd_start chat_id reg) c sym ↔ muted_for reg c sym.
Proof. done. Qed.

(** X2. [/start] is not wrapped by [admin_only]: for a non-admin whose
    [/subscribe] is refused, [/start] still makes the chat a subscriber,
    and a chat that had no mode is from then on a target of every alert
    on a symbol it has not muted. *)
Theorem start_bypasses_admin_gate ADMIN_IDS user_id chat_id reg sym a :
  ADMIN_IDS ≠ ∅ → user_id ∉ ADMIN_IDS →
  chat_id ∉ SUBSCRIBERS reg →
  ALERT_MODE reg !! chat_id = None →
  ¬ muted_for reg chat_id sym →
  (Chat chat_id ∉ build_tasks (cmd_subscribe ADMIN_IDS user_id chat_id reg) sym a) ∧
  (Chat chat_id ∈ build_tasks (cmd_start chat_id reg) sym a).
Proof.
  intros Hne Hnot Hsub Hmode Hmute. split.
  - unfold cmd_subscribe. rewrite admin_only_refused by done.
    rewrite chat_in_build_tasks. by intros [? _].
  - rewrite chat_in_build_tasks. split.
    + cbn. apply elem_of_union. left. by apply elem_of_singleton.
    + unfold skipped. rewrite muted_for_cmd_start. cbn. rewrite Hmode.
      rewrite lookup_insert_eq.
      intros [?|[[[=] _]|[[=] _]]]. done.
Qed.

(** ** Modes *)

Lemma muted_for_mode_body mode chat_id reg c sym :
  muted_for (mode_body mode chat_id reg) c sym ↔ muted_for reg c sym.
Proof. done. Qed.

Lemma chat_in_tasks_after_mode mode chat_id reg sym a :
  Chat chat_id ∈ build_tasks (mode_body mode chat_id reg) sym a ↔
  chat_id ∈ SUBSCRIBERS reg ∧ ¬ muted_for reg chat_id sym ∧
  ¬ (mode = 2 ∧ ¬ ((3 <= a)%Q ∧ (a <= 5)%Q)) ∧
  ¬ (mode = 3 ∧ (a < 10)%Q).
Proof.
  rewrite chat_in_build_tasks. unfold skipped.
  rewrite muted_for_mode_body. cbn [mode_body ALERT_MODE SUBSCRIBERS].
  rewrite lookup_insert_eq. split.
  - intros [Hin Hn]. split; [done|]. split; [|split].
    + intros H. apply Hn. by left.
    + intros [Heq H]. subst mode. apply Hn. right; left. done.
    + intros [Heq H]. subst mode. apply Hn. right; right. done.
  - intros (Hin & Hm & H2 & H3). split; [done|].
    intros [?|[[[= ->] ?]|[[= ->] ?]]]; [done|by apply H2|by apply H3].
Qed.

Lemma in_range_dec (a : Q) : (3 <= a)%Q ∧ (a <= 5)%Q ∨ ¬ ((3 <= a)%Q ∧ (a <= 5)%Q).
Proof.
  destruct (Qlt_le_dec a 3) as [Hlt|H3].
  { right. intros [H _]. exact (Qlt_not_le _ _ Hlt H). }
  destruct (Qlt_le_dec 5 a) as [Hlt|H5].
  { right. intros [_ H]. exact (Qlt_not_le _ _ Hlt H). }
  by left.
Qed.

(** X3. After a mode command run by a user who may run it, a subscriber
    is sent an alert on a symbol exactly when the symbol is not muted
    and, for mode 2, the absolute change lies in [3, 5], for mode 3, the
    absolute change is at least 10; mode 1 sets no condition.  The
    command does not by itself subscribe the chat. *)
Theorem mode_command_sets_delivery ADMIN_IDS user_id chat_id reg sym a :
  authorized ADMIN_IDS user_id →
  (Chat chat_id ∈ build_tasks (cmd_mode1 ADMIN_IDS user_id chat_id reg) sym a ↔
     chat_id ∈ SUBSCRIBERS reg ∧ ¬ muted_for reg chat_id sym) ∧
  (Chat chat_id ∈ build_tasks (cmd_mode2 ADMIN_IDS user_id chat_id reg) sym a ↔
     chat_id ∈ SUBSCRIBERS reg ∧ ¬ muted_for reg chat_id sym ∧
     (3 <= a)%Q ∧ (a <= 5)%Q) ∧
  (Chat chat_id ∈ build_tasks (cmd_mode3 ADMIN_IDS user_id chat_id reg) sym a ↔
     chat_id ∈ SUBSCRIBERS reg ∧ ¬ muted_for reg chat_id sym ∧ (10 <= a)%Q).
Proof.
  intros Hok. unfold cmd_mode1, cmd_mode2, cmd_mode3.
  rewrite !admin_only_allowed by done.
  rewrite !chat_in_tasks_after_mode. split; [|split].
  - split.
    + by intros (? & ? & _).
    + intros [Hin Hm]. split; [done|]. split; [done|].
      split; by intros [[=] _].
  - split.
    + intros (Hin & Hm & H2 & _). split; [done|]. split; [done|].
      destruct (in_range_dec a) as [Hr|Hr]; [done|]. destruct H2. done.
    + intros (Hin & Hm & H3 & H5). split; [done|]. split; [done|]. split.
      * intros [_ Hn]. by apply Hn.
      * by intros [[=] _].
  - split.
    + intros (Hin & Hm & _ & H3). split; [done|]. split; [done|].
      destruct (Qlt_le_dec a 10) as [Hlt|Hle]; [|done]. destruct H3. done.
    + intros (Hin & Hm & H10). split; [done|]. split; [done|]. split.
      * by intros [[=] _].
      * intros [_ Hlt]. exact (Qlt_not_le _ _ Hlt H10).
Qed.

(** X4. No subscriber in mode 2 or mode 3 is ever sent an alert whose
    absolute change lies strictly between 5 and 10. *)
Theorem restricted_modes_miss_5_to_10 reg now ticker_data st st' alert chat_id :
  process_ticker reg now ticker_data st = (st', Some alert) →
  (5 < Qabs (size_tag (msg alert)).1)%Q →
  (Qabs (size_tag (msg alert)).1 < 10)%Q →
  Chat chat_id ∈ tasks alert →
  alert_mode reg chat_id ≠ 2 ∧ alert_mode reg chat_id ≠ 3.
Proof.
  intros Hp H5 H10 Hin.
  apply process_ticker_alert_inv in Hp as (sym & base & _ & _ & _ & ->).
  cbn [msg tasks] in *. rewrite size_tag_fmt_alert in H5, H10.
  apply chat_in_build_tasks in Hin as [_ Hn].
  unfold alert_mode.
  destruct (ALERT_MODE reg !! chat_id) as [mode|] eqn:Hmode; [|done].
  split; intros ->; apply Hn; unfold skipped; rewrite Hmode.
  - right; left. split; [done|]. intros [_ H]. exact (Qlt_not_le _ _ H5 H).
  - right; right. done.
Qed.

(** ** Mute and unmute *)

Lemma subscriber_gets_ext reg reg' sym a c :
  is_muted reg' c sym = is_muted reg c sym →
  ALERT_MODE reg' !! c = ALERT_MODE reg !! c →
  subscriber_gets reg' sym a c = subscriber_gets reg sym a c.
Proof.
  intros Hm Ha. unfold subscriber_gets, alert_mode. by rewrite Hm, Ha.
Qed.

Lemma build_tasks_ext reg reg' sym a :
  CHANNEL_ID reg' = CHANNEL_ID reg →
  SUBSCRIBERS reg' = SUBSCRIBERS reg →
  (∀ c, subscriber_gets reg' sym a c = subscriber_gets reg sym a c) →
  build_tasks reg' sym a = build_tasks reg sym a.
Proof.
  intros Hc Hs Hg. unfold build_tasks. rewrite Hc, Hs. f_equal. f_equal.
  apply list_filter_iff. intros c. by rewrite Hg.
Qed.

Lemma is_muted_ext reg reg' c s :
  (muted_for reg' c s ↔ muted_for reg c s) →
  is_muted reg' c s = is_muted reg c s.
Proof.
  rewrite <- !is_muted_iff.
  destruct (is_muted reg' c s), (is_muted reg c s); intros [H1 H2]; try done.
  - by rewrite H1.
  - by rewrite H2.
Qed.

Lemma muted_for_mute upper_strip arg rest chat_id reg c s :
  muted_for (mute_body upper_strip (arg :: rest) chat_id reg) c s ↔
  (c = chat_id ∧ s = symbol_of_coin (upper_strip arg)) ∨ muted_for reg c s.
Proof.
  unfold muted_for. cbn [mute_body MUTED_COINS].
  destruct (decide (c = chat_id)) as [->|Hne].
  - rewrite lookup_insert_eq. split.
    + intros (coins & [= <-] & Hin).
      apply elem_of_union in Hin as [Hin|Hin].
      * left. apply elem_of_singleton in Hin. done.
      * right. destruct (MUTED_COINS reg !! chat_id) as [old|]; [eauto|].
        by apply not_elem_of_empty in Hin.
    + intros [[_ ->]|(coins & Hc & Hin)].
      * eexists. split; [done|]. apply elem_of_union. left.
        by apply elem_of_singleton.
      * eexists. split; [done|]. apply elem_of_union. right. by rewrite Hc.
  - rewrite lookup_insert_ne by done. split; [by right|].
    intros [[? _]|H]; done.
Qed.

Lemma muted_for_unmute upper_strip arg rest chat_id reg c s :
  muted_for (unmute_body upper_strip (arg :: rest) chat_id reg) c s ↔
  muted_for reg c s ∧ ¬ (c = chat_id ∧ s = symbol_of_coin (upper_strip arg)).
Proof.
  unfold unmute_body.
  destruct (MUTED_COINS reg !! chat_id) as [coins|] eqn:Hc.
  - destruct (bool_decide (symbol_of_coin (upper_strip arg) ∈ coins)) eqn:Hin.
    + unfold muted_for. cbn [MUTED_COINS].
      destruct (decide (c = chat_id)) as [->|Hne].
      * rewrite lookup_insert_eq, Hc. split.
        -- intros (? & [= <-] & Hs). apply elem_of_difference in Hs as [Hs Hn].
           split; [eauto|]. intros [_ ->]. apply Hn. by apply elem_of_singleton.
        -- intros [(? & [= <-] & Hs) Hn]. eexists. split; [done|].
           apply elem_of_difference. split; [done|].
           intros Heq. apply elem_of_singleton in Heq. by apply Hn.
      * rewrite lookup_insert_ne by done. split; [|by intros [? _]].
        intros H. split; [done|]. by intros [? _].
    + apply bool_decide_eq_false in Hin. split; [|by intros [? _]].
      intros H. split; [done|]. intros [-> ->].
      destruct H as (? & Hc' & Hs). rewrite Hc in Hc'. injection Hc' as <-. done.
  - split; [|by intros [? _]].
    intros H. split; [done|]. intros [-> ->].
    destruct H as (? & Hc' & Hs). by rewrite Hc in Hc'.
Qed.

Lemma unmute_body_frame upper_strip args chat_id reg :
  CHANNEL_ID (unmute_body upper_strip args chat_id reg) = CHANNEL_ID reg ∧
  SUBSCRIBERS (unmute_body upper_strip args chat_id reg) = SUBSCRIBERS reg ∧
  ALERT_MODE (unmute_body upper_strip args chat_id reg) = ALERT_MODE reg.
Proof.
  unfold unmute_body. destruct args; [done|].
  destruct (MUTED_COINS reg !! chat_id); [|done].
  by destruct (bool_decide _).
Qed.

(** X5. After [/mute COIN] by a user who may run it, no alert on the
    symbol of the coin is sent to the chat, whatever its mode and the size
    of the move; the alerts on every other symbol, and the alerts on that
    symbol to every other chat, go out as before. *)
Theorem mute_blocks_symbol upper_strip ADMIN_IDS arg rest user_id chat_id reg :
  authorized ADMIN_IDS user_id →
  let muted := cmd_mute upper_strip ADMIN_IDS (arg :: rest) user_id chat_id reg in
  let symbol := symbol_of_coin (upper_strip arg) in
  (∀ a, Chat chat_id ∉ build_tasks muted symbol a) ∧
  (∀ sym a, sym ≠ symbol → build_tasks muted sym a = build_tasks reg sym a) ∧
  (∀ c a, c ≠ chat_id →
     Chat c ∈ build_tasks muted symbol a ↔ Chat c ∈ build_tasks reg symbol a).
Proof.
  intros Hok muted symbol. subst muted. unfold cmd_mute.
  rewrite admin_only_allowed by done. split; [|split].
  - intros a. rewrite chat_in_build_tasks. intros [_ Hn]. apply Hn. left.
    apply muted_for_mute. by left.
  - intros sym a Hne. apply build_tasks_ext; [done|done|].
    intros c. apply subscriber_gets_ext; [|done].
    apply is_muted_ext. rewrite muted_for_mute. split; [|by right].
    intros [[_ ?]|?]; done.
  - intros c a Hne. rewrite !chat_in_build_tasks, <- !subscriber_gets_iff.
    rewrite (subscriber_gets_ext reg _ symbol a c); [done| |done].
    apply is_muted_ext. rewrite muted_for_mute. split; [|by right].
    intros [[? _]|?]; done.
Qed.

(** X6. [/unmute COIN] after [/mute COIN] leaves the symbol unmuted; when
    it was not muted before the two commands, every alert goes out exactly
    as before them; and [/unmute] of a symbol that is not muted changes
    nothing. *)
Theorem unmute_undoes_mute upper_strip ADMIN_IDS arg rest user_id chat_id reg :
  authorized ADMIN_IDS user_id →
  let symbol := symbol_of_coin (upper_strip arg) in
  let muted := cmd_mute upper_strip ADMIN_IDS (arg :: rest) user_id chat_id reg in
  let unmuted :=
    cmd_unmute upper_strip ADMIN_IDS (arg :: rest) user_id chat_id muted in
  ¬ muted_for unmuted chat_id symbol ∧
  (¬ muted_for reg chat_id symbol →
     (∀ sym a, build_tasks unmuted sym a = build_tasks reg sym a) ∧
     cmd_unmute upper_strip ADMIN_IDS (arg :: rest) user_id chat_id reg = reg).
Proof.
  intros Hok symbol muted unmuted. subst muted unmuted.
  unfold cmd_mute, cmd_unmute. rewrite !admin_only_allowed by done.
  split.
  - rewrite muted_for_unmute. intros [_ Hn]. by apply Hn.
  - intros Hnot. split.
    + intros sym a.
      destruct (unmute_body_frame upper_strip (arg :: rest) chat_id
                  (mute_body upper_strip (arg :: rest) chat_id reg))
        as (Hch & Hsub & Hmode).
      apply build_tasks_ext; [by rewrite Hch|by rewrite Hsub|].
      intros c. apply subscriber_gets_ext; [|by rewrite Hmode].
      apply is_muted_ext. rewrite muted_for_unmute, muted_for_mute. split.
      * intros [[[-> ->]|H] Hn]; [by destruct Hn|done].
      * intros H. split; [by right|]. intros [-> ->]. done.
    + unfold unmute_body.
      destruct (MUTED_COINS reg !! chat_id) as [coins|] eqn:Hc; [|done].
      rewrite bool_decide_eq_false_2; [done|].
      intros Hin. apply Hnot. by exists coins.
Qed.

(** ** Unsubscribing *)

(** X7. After [/unsubscribe] by a user who may run it, no alert is sent
    to the chat, the other chats are served as before, and the mode and
    the mute list of the chat stay on record: a later [/subscribe] brings
    a former subscriber back to exactly the registry it left. *)
Theorem unsubscribe_keeps_preferences ADMIN_IDS user_id chat_id reg :
  authorized ADMIN_IDS user_id →
  let off := cmd_unsubscribe ADMIN_IDS user_id chat_id reg in
  (∀ sym a, Chat chat_id ∉ build_tasks off sym a) ∧
  (∀ c sym a, c ≠ chat_id →
     Chat c ∈ build_tasks off sym a ↔ Chat c ∈ build_tasks reg sym a) ∧
  ALERT_MODE off = ALERT_MODE reg ∧
  MUTED_COINS off = MUTED_COINS reg ∧
  (chat_id ∈ SUBSCRIBERS reg →
     cmd_subscribe ADMIN_IDS user_id chat_id off = reg).
Proof.
  intros Hok off. subst off. unfold cmd_unsubscribe, cmd_subscribe.
  rewrite !admin_only_allowed by done.
  split; [|split; [|split; [done|split; [done|]]]].
  - intros sym a. rewrite chat_in_build_tasks. cbn [unsubscribe_body SUBSCRIBERS].
    intros [Hin _]. apply elem_of_difference in Hin as [_ Hn].
    apply Hn. by apply elem_of_singleton.
  - intros c sym a Hne. rewrite !chat_in_build_tasks.
    cbn [unsubscribe_body SUBSCRIBERS].
    rewrite elem_of_difference, elem_of_singleton. split.
    + intros [[Hin _] Hs]. by split.
    + intros [Hin Hs]. by split.
  - intros Hin. destruct reg as [ch subs modes mutes].
    unfold subscribe_body, unsubscribe_body. cbn in *.
    f_equal. apply set_eq. intros x.
    rewrite elem_of_union, elem_of_difference, elem_of_singleton.
    destruct (decide (x = chat_id)) as [->|Hne]; split.
    + done.
    + by left.
    + intros [?|[? _]]; done.
    + intros Hx. right. done.
Qed.

(** ** Symbols and coin names *)

Lemma substring_skip n m c s :
  String.substring (S n) m (String c s) = String.substring n m s.
Proof. done. Qed.













(** ** The send tasks of an alert *)


#[local] Set Warnings "-clear-no-such-hyp".
(** ** The detector: frame and invariants *)

Lemma state_eq (a b : State) :
  LAST_PRICES a = LAST_PRICES b → BASE_PRICES a = BASE_PRICES b →
  ALERTED_SYMBOLS a = ALERTED_SYMBOLS b → MAX_CHANGES a = MAX_CHANGES b →
  LAST_SIGNIFICANT_CHANGE a = LAST_SIGNIFICANT_CHANGE b → a = b.
Proof. destruct a, b. cbn. by intros -> -> -> -> ->. Qed.

Lemma same_entries_refl other st : same_entries other st st.
Proof. by repeat split. Qed.

Lemma same_entries_trans other a b c :
  same_entries other a b → same_entries other b c → same_entries other a c.
Proof.
  intros (H1 & H2 & H3 & H4 & H5) (K1 & K2 & K3 & K4 & K5).
  repeat split; congruence.
Qed.

Lemma same_entries_track other s pc t st :
  other ≠ s → same_entries other (track_max_change s pc t st) st.
Proof.
  intros Hne. unfold track_max_change.
  destruct (MAX_CHANGES st !! s); [destruct (Py.gt _ _)|];
    repeat split; cbn; by rewrite ?lookup_insert_ne.
Qed.

Lemma same_entries_reset other s p t st :
  other ≠ s → same_entries other (reset_base s p t st) st.
Proof.
  intros Hne. repeat split; cbn; by rewrite ?lookup_insert_ne.
Qed.

Lemma same_entries_alerted other s t st :
  other ≠ s →
  same_entries other
    (set_ALERTED_SYMBOLS (<[s := t]> (ALERTED_SYMBOLS st)) st) st.
Proof.
  intros Hne. repeat split; cbn; by rewrite ?lookup_insert_ne.
Qed.

Lemma same_entries_detect other reg now s p b st :
  other ≠ s → same_entries other (detect reg now s p b st).1 st.
Proof.
  intros Hne. unfold detect.
  set (st2 := track_max_change _ _ _ _).
  assert (same_entries other st2 st) as H2 by by apply same_entries_track.
  set (st3 := if should_reset_base _ _ _ _ then _ else _).
  assert (same_entries other st3 st) as H3.
  { subst st3. destruct (should_reset_base _ _ _ _); [|done].
    eapply same_entries_trans; [by apply same_entries_reset|done]. }
  destruct (negb _); [done|].
  assert (same_entries other
            (set_ALERTED_SYMBOLS (<[s := now]> (ALERTED_SYMBOLS st3)) st3) st)
    as H4.
  { eapply same_entries_trans; [by apply same_entries_alerted|done]. }
  destruct (build_tasks _ _ _); [done|].
  destruct (Py.ge _ _); [|done]. cbn [fst].
  eapply same_entries_trans; [by apply same_entries_reset|done].
Qed.

(** X10. A ticker message changes nothing about any other symbol: the
    last price, base price, alert time, extremum tracker and time of last
    significant change of every symbol that the message does not name
    stay as they were. *)
Theorem other_symbols_untouched reg now ticker_data st other :
  symbol ticker_data ≠ Some other →
  same_entries other (process_ticker reg now ticker_data st).1 st.
Proof.
  intros Hother. unfold process_ticker.
  destruct (negb _); [apply same_entries_refl|].
  destruct (symbol ticker_data) as [s|]; [|apply same_entries_refl].
  assert (other ≠ s) as Hne by congruence.
  destruct (rejected ticker_data); [apply same_entries_refl|].
  set (st1 := set_LAST_PRICES _ st).
  assert (same_entries other st1 st) as H1.
  { repeat split; cbn; by rewrite ?lookup_insert_ne. }
  destruct (BASE_PRICES st1 !! s) as [b|]; cbn [fst].
  - destruct (Py.eq b 0); [done|].
    eapply same_entries_trans; [by apply same_entries_detect|done].
  - eapply same_entries_trans; [|exact H1].
    repeat split; cbn; by rewrite ?lookup_insert_ne.
Qed.





Lemma reset_one_frame now st item :
  LAST_PRICES (reset_one now st item) = LAST_PRICES st ∧
  ALERTED_SYMBOLS (reset_one now st item) = ALERTED_SYMBOLS st ∧
  MAX_CHANGES (reset_one now st item) = MAX_CHANGES st ∧
  LAST_SIGNIFICANT_CHANGE (reset_one now st item) = LAST_SIGNIFICANT_CHANGE st.
Proof. destruct item as [s i]. cbn. by destruct (no_recent_alert _ _). Qed.

Lemma job_frame now st :
  LAST_PRICES (job_reset_base_prices now st) = LAST_PRICES st ∧
  ALERTED_SYMBOLS (job_reset_base_prices now st) = ALERTED_SYMBOLS st ∧
  MAX_CHANGES (job_reset_base_prices now st) = MAX_CHANGES st ∧
  LAST_SIGNIFICANT_CHANGE (job_reset_base_prices now st)
  = LAST_SIGNIFICANT_CHANGE st.
Proof.
  unfold job_reset_base_prices. generalize (map_to_list (LAST_PRICES st)).
  intros items. revert st.
  induction items as [|item items IH]; intros st; [done|].
  cbn [foldl]. destruct (IH (reset_one now st item)) as (-> & -> & -> & ->).
  apply reset_one_frame.
Qed.




(** ** The detector: drift, retriggering, direction, missing keys *)

Lemma small_change_no_alert pc : (Qabs pc < 1.5)%Q → qualifies pc = false.
Proof.
  intros H. apply not_true_is_false. intros Hq.
  apply qualifies_iff in Hq. revert H. apply Qabs_case; intros; lra.
Qed.

Lemma small_step reg now ticker_data st sym base :
  reachable st →
  valid_sample ticker_data sym →
  BASE_PRICES st !! sym = Some base →
  (Qabs (change_pct (price ticker_data) base) < 1.5)%Q →
  (process_ticker reg now ticker_data st).2 = None ∧
  BASE_PRICES (process_ticker reg now ticker_data st).1 !! sym
  = Some (price ticker_data).
Proof.
  intros Hr Hv Hb Hsmall.
  assert (0 < base)%Q as Hpos by exact (wf_base st (reachable_wf st Hr) sym base Hb).
  rewrite (process_ticker_tracking _ _ _ _ _ _ Hv Hb Hpos).
  set (st1 := set_LAST_PRICES _ st). split.
  - rewrite detect_alert. by rewrite small_change_no_alert.
  - destruct (detect_state reg now sym (price ticker_data) base st1) as (HB & _).
    rewrite HB.
    assert (reset_by_decision now sym (price ticker_data) base st1 = true) as ->;
      [|done].
    unfold reset_by_decision, should_reset_base.
    apply Py_lt_iff in Hsmall. by rewrite Hsmall.
Qed.

(** X12. A drift in small steps never raises an alert: when every
    sample of a symbol is within 1.5% of the sample before it, the base
    price follows the price from sample to sample, no alert is produced
    however many samples there are and however far the price ends from
    where it started, and the base price ends at the last price. *)
Theorem slow_drift_never_alerts reg messages : ∀ st sym base,
  reachable st →
  BASE_PRICES st !! sym = Some base →
  small_steps sym base messages →
  Forall (λ alert, alert = None) (process_all reg messages st).2 ∧
  BASE_PRICES (process_all reg messages st).1 !! sym
  = Some (final_price base messages).
Proof.
  induction messages as [|[now ticker_data] rest IH];
    intros st sym base Hr Hb Hsteps.
  - split; [constructor|done].
  - destruct Hsteps as (Hv & Hsmall & Hrest).
    destruct (small_step reg now ticker_data st sym base Hr Hv Hb Hsmall)
      as [Hnone Hbase].
    pose proof (reach_ticker reg now ticker_data st Hr) as Hr'.
    cbn [process_all final_price].
    destruct (process_ticker reg now ticker_data st) as [st1 alert].
    cbn [fst snd] in *. subst alert.
    destruct (IH st1 sym (price ticker_data) Hr' Hbase Hrest) as [Hall Hfinal].
    destruct (process_all reg rest st1) as [st2 alerts]. cbn [fst snd] in *.
    split; [by constructor|done].
Qed.

Lemma change_pct_sign p b :
  (0 < b)%Q →
  ((0 < change_pct p b)%Q ↔ (b < p)%Q) ∧ ((change_pct p b < 0)%Q ↔ (p < b)%Q).
Proof.
  intros Hb. unfold change_pct, Qdiv.
  pose proof (Qinv_lt_0_compat b Hb) as Hi.
  assert (b * / b == 1)%Q as Hone by (apply Qmult_inv_r; lra).
  revert Hi Hone. generalize (/ b)%Q. intros i Hi Hone.
  split; split; intros H; nra.
Qed.

Lemma change_pct_same p p' :
  (0 < p)%Q → (p' == p)%Q → (change_pct p' p == 0)%Q.
Proof.
  intros Hp Heq. unfold change_pct, Qdiv.
  assert (p' - p == 0)%Q as H0 by lra.
  generalize (/ p)%Q. intros i. nra.
Qed.

Lemma extreme_reset_base reg now ticker_data st sym base alert :
  reachable st →
  valid_sample ticker_data sym →
  BASE_PRICES st !! sym = Some base →
  (process_ticker reg now ticker_data st).2 = Some alert →
  severity (msg alert) = EXTREME →
  tasks alert ≠ [] →
  BASE_PRICES (process_ticker reg now ticker_data st).1 !! sym
  = Some (price ticker_data).
Proof.
  intros Hr Hv Hb Ha Hsev Htasks.
  assert (0 < base)%Q as Hpos by exact (wf_base st (reachable_wf st Hr) sym base Hb).
  revert Ha. rewrite (process_ticker_tracking _ _ _ _ _ _ Hv Hb Hpos).
  set (st1 := set_LAST_PRICES _ st). rewrite detect_alert. intros Ha.
  destruct (qualifies _) eqn:Hq; [|done].
  injection Ha as <-. cbn [msg tasks] in Hsev, Htasks.
  rewrite severity_fmt_alert in Hsev.
  destruct (Py.ge _ EXTREME_THRESHOLD) eqn:Hge; [|done].
  destruct (detect_state reg now sym (price ticker_data) base st1) as (HB & _).
  assert (reset_after_extreme reg sym (price ticker_data) base = true) as Hreset.
  { unfold reset_after_extreme. rewrite Hq, Hge.
    by destruct (build_tasks _ _ _). }
  by rewrite Hreset, orb_true_r in HB.
Qed.

(** X13. An extreme alert that was sent to somebody is not raised again
    by the same price: the next sample of the symbol at the price of the
    alert produces no alert. *)
Theorem extreme_alert_is_not_repeated
    reg now ticker_data st sym base alert reg' now' ticker_data' :
  reachable st →
  valid_sample ticker_data sym →
  BASE_PRICES st !! sym = Some base →
  (process_ticker reg now ticker_data st).2 = Some alert →
  severity (msg alert) = EXTREME →
  tasks alert ≠ [] →
  valid_sample ticker_data' sym →
  (price ticker_data' == price ticker_data)%Q →
  (process_ticker reg' now' ticker_data'
     (process_ticker reg now ticker_data st).1).2 = None.
Proof.
  intros Hr Hv Hb Ha Hsev Htasks Hv' Heq.
  pose proof (extreme_reset_base _ _ _ _ _ _ _ Hr Hv Hb Ha Hsev Htasks) as HB.
  pose proof (price_positive _ _ Hv) as Hpos.
  rewrite (process_ticker_tracking _ _ _ _ _ _ Hv' HB Hpos).
  rewrite detect_alert.
  pose proof (change_pct_same _ _ Hpos Heq) as H0.
  destruct (qualifies _) eqn:Hq; [|done].
  apply qualifies_iff in Hq. destruct Hq; lra.
Qed.

(** X14. The marks of an alert agree with the move of the price: when
    the new price is above the old one the alert is green with rockets,
    when it is below it is red with explosions, and the two prices are
    never equal; the banner of an extreme move goes with the triple
    icon. *)
Theorem alert_marks_match_move reg now ticker_data st st' alert :
  reachable st →
  process_ticker reg now ticker_data st = (st', Some alert) →
  let text := msg alert in
  ((old_price text < new_price text)%Q ∧ color text = Green ∧
     (icon text = Rocket2 ∨ icon text = Rocket3)
   ∨ (new_price text < old_price text)%Q ∧ color text = Red ∧
     (icon text = Boom2 ∨ icon text = Boom3)) ∧
  (highlight text = true ↔ icon text = Rocket3 ∨ icon text = Boom3).
Proof.
  intros Hr Hp text. subst text.
  apply process_ticker_alert_inv in Hp as (sym & base & _ & Hb & Hq & ->).
  assert (0 < base)%Q as Hpos by exact (wf_base st (reachable_wf st Hr) sym base Hb).
  destruct (change_pct_sign (price ticker_data) base Hpos) as [Hup Hdown].
  apply qualifies_iff in Hq. cbn [msg]. unfold fmt_alert.
  set (pc := change_pct (price ticker_data) base) in *.
  assert (Py.ge pc 0 = true ∧ (base < price ticker_data)%Q
          ∨ Py.ge pc 0 = false ∧ (price ticker_data < base)%Q) as Hdir.
  { destruct Hq as [Hq|Hq].
    - left. split; [apply Py_le_iff; lra|apply Hup; lra].
    - right. split; [apply Py_le_false; lra|apply Hdown; lra]. }
  destruct Hdir as [[-> Hlt]|[-> Hlt]];
    destruct (Py.ge (Qabs pc) EXTREME_THRESHOLD); cbn.
  - split; [left; eauto|]. split; [eauto|done].
  - split; [left; eauto|]. split; [done|]. by intros [?|?].
  - split; [right; eauto|]. split; [eauto|done].
  - split; [right; eauto|]. split; [done|]. by intros [?|?].
Qed.


(** ** The backup job: frame, idempotence, composition *)

(** X16. The backup job writes base prices only: last prices, alert
    times, trackers and times of last significant change are as before,
    no base price is removed, and running the job a second time at the
    same moment changes nothing more. *)
Theorem backup_job_is_idempotent now st :
  LAST_PRICES (job_reset_base_prices now st) = LAST_PRICES st ∧
  ALERTED_SYMBOLS (job_reset_base_prices now st) = ALERTED_SYMBOLS st ∧
  MAX_CHANGES (job_reset_base_prices now st) = MAX_CHANGES st ∧
  LAST_SIGNIFICANT_CHANGE (job_reset_base_prices now st)
  = LAST_SIGNIFICANT_CHANGE st ∧
  dom (BASE_PRICES st) ⊆ dom (BASE_PRICES (job_reset_base_prices now st)) ∧
  job_reset_base_prices now (job_reset_base_prices now st)
  = job_reset_base_prices now st.
Proof.
  destruct (job_frame now st) as (Hl & Ha & Hm & Hs).
  do 4 (split; [done|]). split.
  - intros s Hin. apply elem_of_dom in Hin. apply elem_of_dom.
    rewrite job_base. destruct (LAST_PRICES st !! s); [|done].
    by destruct (no_recent_alert _ _).
  - destruct (job_frame now (job_reset_base_prices now st))
      as (Hl' & Ha' & Hm' & Hs').
    apply state_eq; [done| |done|done|done].
    apply map_eq. intros s. rewrite job_base, Hl, Ha.
    rewrite (job_base now st s).
    destruct (LAST_PRICES st !! s); [|done].
    by destruct (no_recent_alert _ _).
Qed.

(** X17. The backup job adopts the latest sample: after a valid sample
    of a symbol, a run of the job that finds no alert of the symbol in
    the last 300 seconds makes the price of that sample the base price. *)
Theorem backup_job_adopts_last_sample reg now ticker_data st sym later :
  valid_sample ticker_data sym →
  alert_absent_or_old later (process_ticker reg now ticker_data st).1 sym →
  BASE_PRICES
    (job_reset_base_prices later (process_ticker reg now ticker_data st).1)
  !! sym = Some (price ticker_data).
Proof.
  intros Hv Hold. rewrite job_base.
  rewrite (last_price_recorded _ _ _ _ _ Hv).
  apply no_recent_alert_iff in Hold. by rewrite Hold.
Qed.

(** ** The HTTP helper *)

Lemma fetch_attempts_first_answer retry reply jitter items k :
  ∀ remaining attempt,
  (attempt + remaining = retry)%nat →
  (attempt <= k < retry)%nat →
  (∀ i, (attempt <= i < k)%nat → dict_answer (reply i) = None) →
  dict_answer (reply k) = Some items →
  (fetch_attempts remaining attempt retry reply jitter).2
    = Returned (unwrap_data items) ∧
  length (fetch_attempts remaining attempt retry reply jitter).1
    = (k - attempt)%nat.
Proof.
  induction remaining as [|remaining IH]; intros attempt Hsum Hk Hbefore Hat.
  { lia. }
  cbn [fetch_attempts].
  destruct (decide (attempt = k)) as [->|Hne].
  - destruct (reply k) as [| |[]]; try done.
    cbn in Hat. injection Hat as ->. cbn. split; [done|lia].
  - assert ((attempt =? retry - 1)%nat = false) as -> by (apply Nat.eqb_neq; lia).
    destruct (IH (S attempt)) as [Hr Hl]; [lia|lia| |done|].
    { intros i Hi. apply Hbefore. lia. }
    pose proof (Hbefore attempt) as Hnone.
    destruct (reply attempt) as [| |[]]; cbn [fst snd length];
      first [by (split; [done|rewrite Hl; lia])
            | (exfalso; specialize (Hnone ltac:(lia)); done)].
Qed.

(** X18. [fetch_json] returns the first JSON dict it is answered with:
    when the attempts before the [k]-th one end in status 429, in an
    exception or in a body that is not a dict, and the [k]-th one, within
    the budget of [retry] attempts, is answered with a dict, the function
    returns the value of its key [data] (or the dict itself without such
    a key) after exactly [k] sleeps. *)
Theorem fetch_json_returns_first_answer retry reply jitter items k :
  (k < retry)%nat →
  (∀ i, (i < k)%nat → dict_answer (reply i) = None) →
  dict_answer (reply k) = Some items →
  (fetch_json retry reply jitter).2 = Returned (unwrap_data items) ∧
  length (fetch_json retry reply jitter).1 = k.
Proof.
  intros Hk Hbefore Hat. unfold fetch_json.
  destruct (fetch_attempts_first_answer retry reply jitter items k retry 0%nat)
    as [Hr Hl]; try done; try lia.
  - intros i Hi. apply Hbefore. lia.
  - split; [done|]. rewrite Hl. lia.
Qed.

Lemma pow2_succ (a : nat) : 2 ^ Z.of_nat (S a) = 2 * 2 ^ Z.of_nat a.
Proof. rewrite Nat2Z.inj_succ. apply Z.pow_succ_r. lia. Qed.

Lemma fetch_attempts_all_429 retry reply jitter :
  (∀ i, (i < retry)%nat → reply i = TooManyRequests) →
  (∀ i, (0 <= jitter i)%Q) →
  ∀ remaining attempt,
  (attempt + remaining = retry)%nat →
  (fetch_attempts remaining attempt retry reply jitter).2 = GaveUp ∧
  length (fetch_attempts remaining attempt retry reply jitter).1 = remaining ∧
  (inject_Z (2 ^ Z.of_nat retry - 2 ^ Z.of_nat attempt)
   <= total_sleep (fetch_attempts remaining attempt retry reply jitter).1)%Q.
Proof.
  intros Hall Hj. induction remaining as [|remaining IH]; intros attempt Hsum.
  - cbn. split; [done|]. split; [done|].
    replace attempt with retry by lia. rewrite Z.sub_diag. apply Qle_refl.
  - cbn [fetch_attempts]. rewrite Hall by lia.
    destruct (IH (S attempt)) as (Hr & Hl & Hs); [lia|].
    cbn [fst snd length total_sleep foldr]. split; [done|].
    split; [by rewrite Hl|].
    fold (total_sleep (fetch_attempts remaining (S attempt) retry reply jitter).1).
    revert Hs. generalize (total_sleep
      (fetch_attempts remaining (S attempt) retry reply jitter).1).
    intros rest Hs. specialize (Hj attempt).
    rewrite pow2_succ in Hs.
    assert (inject_Z (2 ^ Z.of_nat retry - 2 ^ Z.of_nat attempt)
            == inject_Z (2 ^ Z.of_nat attempt)
               + inject_Z (2 ^ Z.of_nat retry - 2 * 2 ^ Z.of_nat attempt))%Q
      as Heq.
    { rewrite <- inject_Z_plus. apply inject_Z_injective. lia. }
    revert Hs Heq Hj.
    generalize (inject_Z (2 ^ Z.of_nat retry - 2 ^ Z.of_nat attempt)).
    generalize (inject_Z (2 ^ Z.of_nat retry - 2 * 2 ^ Z.of_nat attempt)).
    generalize (inject_Z (2 ^ Z.of_nat attempt)). generalize (jitter attempt).
    intros. lra.
Qed.

(** X19. Against a server that answers every attempt with status 429,
    [fetch_json] sleeps after each of its [retry] attempts, the last one
    included, for at least [2^retry - 1] seconds in all, and then raises
    its own error; with the default of 3 attempts that is at least 7
    seconds. *)
Theorem fetch_json_gives_up_after_backoff retry reply jitter :
  (∀ i, (i < retry)%nat → reply i = TooManyRequests) →
  (∀ i, (0 <= jitter i)%Q) →
  (fetch_json retry reply jitter).2 = GaveUp ∧
  length (fetch_json retry reply jitter).1 = retry ∧
  (inject_Z (2 ^ Z.of_nat retry - 1)
   <= total_sleep (fetch_json retry reply jitter).1)%Q.
Proof.
  intros Hall Hj. unfold fetch_json.
  destruct (fetch_attempts_all_429 retry reply jitter Hall Hj retry 0%nat)
    as (Hr & Hl & Hs); [lia|].
  done.
Qed.

Lemma fetch_attempts_outcome retry reply jitter :
  ∀ remaining attempt,
  (attempt + remaining = retry)%nat →
  (length (fetch_attempts remaining attempt retry reply jitter).1
   <= remaining)%nat ∧
  (∀ v, (fetch_attempts remaining attempt retry reply jitter).2 = Returned v →
     ∃ i items,
       (attempt <= i < retry)%nat ∧ reply i = Answered (JObject items) ∧
       v = unwrap_data items ∧
       length (fetch_attempts remaining attempt retry reply jitter).1
       = (i - attempt)%nat) ∧
  ((fetch_attempts remaining attempt retry reply jitter).2 = Raised →
     (attempt < retry)%nat ∧ dict_answer (reply (retry - 1)%nat) = None ∧
     reply (retry - 1)%nat ≠ TooManyRequests ∧
     length (fetch_attempts remaining attempt retry reply jitter).1
     = (retry - 1 - attempt)%nat) ∧
  ((fetch_attempts remaining attempt retry reply jitter).2 = GaveUp →
     remaining = 0%nat ∨ reply (retry - 1)%nat = TooManyRequests).
Proof.
  induction remaining as [|remaining IH]; intros attempt Hsum.
  { cbn. split; [lia|]. split; [done|]. split; [done|]. by left. }
  destruct (IH (S attempt)) as (Hlen & Hret & Hraise & Hgave); [lia|].
  cbn [fetch_attempts].
  set (next := fetch_attempts remaining (S attempt) retry reply jitter) in *.
  assert (∀ slept,
    (length (slept :: next.1) <= S remaining)%nat ∧
    (∀ v, next.2 = Returned v →
       ∃ i items,
         (attempt <= i < retry)%nat ∧ reply i = Answered (JObject items) ∧
         v = unwrap_data items ∧
         length (slept :: next.1) = (i - attempt)%nat) ∧
    (next.2 = Raised →
       (attempt < retry)%nat ∧ dict_answer (reply (retry - 1)%nat) = None ∧
       reply (retry - 1)%nat ≠ TooManyRequests ∧
       length (slept :: next.1) = (retry - 1 - attempt)%nat)) as Hnext.
  { intros slept. cbn [length]. split; [lia|]. split.
    - intros v Hv. destruct (Hret v Hv) as (i & items & Hi & Hrep & -> & Hl).
      exists i, items. split; [lia|]. split; [done|]. split; [done|].
      rewrite Hl. lia.
    - intros Hr. destruct (Hraise Hr) as (H0 & Hd & Hn & Hl).
      split; [lia|]. split; [done|]. split; [done|]. rewrite Hl. lia. }
  assert (dict_answer (reply attempt) = None →
          reply attempt ≠ TooManyRequests →
          let r :=
            if (attempt =? retry - 1)%nat then ([], Raised)
            else (jitter attempt :: next.1, next.2) in
          (length r.1 <= S remaining)%nat ∧
          (∀ v, r.2 = Returned v →
             ∃ i items,
               (attempt <= i < retry)%nat ∧ reply i = Answered (JObject items) ∧
               v = unwrap_data items ∧ length r.1 = (i - attempt)%nat) ∧
          (r.2 = Raised →
             (attempt < retry)%nat ∧ dict_answer (reply (retry - 1)%nat) = None ∧
             reply (retry - 1)%nat ≠ TooManyRequests ∧
             length r.1 = (retry - 1 - attempt)%nat) ∧
          (r.2 = GaveUp →
             S remaining = 0%nat ∨ reply (retry - 1)%nat = TooManyRequests))
    as Hexc.
  { intros Hd Hn. cbv zeta.
    destruct (attempt =? retry - 1)%nat eqn:E.
    - apply Nat.eqb_eq in E. cbn. split; [lia|]. split; [done|]. split; [|done].
      intros _. rewrite <- E. repeat split; try done; lia.
    - destruct (Hnext (jitter attempt)) as (H1 & H2 & H3).
      cbn [fst snd]. split; [done|]. split; [done|]. split; [done|].
      intros Hg. destruct (Hgave Hg) as [->|?]; [|by right].
      apply Nat.eqb_neq in E. lia. }
  destruct (reply attempt) as [| |body] eqn:Hrep.
  - destruct (Hnext (inject_Z (2 ^ Z.of_nat attempt) + jitter attempt)%Q)
      as (H1 & H2 & H3).
    cbn [fst snd]. split; [done|]. split; [done|]. split; [done|].
    intros Hg. destruct (Hgave Hg) as [->|?]; [|by right].
    right. replace (retry - 1)%nat with attempt by lia. done.
  - by apply Hexc.
  - destruct body; try by apply Hexc.
    cbn [fst snd length]. split; [lia|]. split; [|done].
    intros v [= <-]. exists attempt, items.
    repeat split; try done; lia.
Qed.

(** X20. [fetch_json] sleeps at most [retry] times.  A value it returns
    is the unwrapped dict of one of the first [retry] attempts; the
    exception it re-raises is that of the last attempt, which was not a
    status 429, and it is re-raised without a sleep after it; and its own
    error means that no attempt was allowed or that the last attempt met
    status 429. *)
Theorem fetch_json_outcomes retry reply jitter :
  (length (fetch_json retry reply jitter).1 <= retry)%nat ∧
  (∀ v, (fetch_json retry reply jitter).2 = Returned v →
     ∃ i items,
       (i < retry)%nat ∧ reply i = Answered (JObject items) ∧
       v = unwrap_data items ∧ length (fetch_json retry reply jitter).1 = i) ∧
  ((fetch_json retry reply jitter).2 = Raised →
     (0 < retry)%nat ∧ dict_answer (reply (retry - 1)%nat) = None ∧
     reply (retry - 1)%nat ≠ TooManyRequests ∧
     length (fetch_json retry reply jitter).1 = (retry - 1)%nat) ∧
  ((fetch_json retry reply jitter).2 = GaveUp →
     retry = 0%nat ∨ reply (retry - 1)%nat = TooManyRequests).
Proof.
  unfold fetch_json.
  destruct (fetch_attempts_outcome retry reply jitter retry 0%nat)
    as (Hlen & Hret & Hraise & Hgave); [lia|].
  split; [done|]. split; [|split; [|done]].
  - intros v Hv. destruct (Hret v Hv) as (i & items & Hi & Hrep & -> & Hl).
    exists i, items. repeat split; try done; lia.
  - intros Hr. destruct (Hraise Hr) as (H0 & Hd & Hn & Hl).
    repeat split; try done. lia.
Qed.

(** ** The instrument catalog *)

Lemma is_active_usdt_iff c : is_active_usdt c = true ↔ active_usdt c.
Proof.
  unfold is_active_usdt, active_usdt. rewrite andb_true_iff. split.
  - intros [Hs Hst]. split.
    + destruct (dict_get "settleCoin" c) as [[]|]; try done.
      apply String.eqb_eq in Hs. by subst.
    + destruct (dict_get "state" c) as [[| b | x | | |]|]; try done.
      * right. by destruct b.
      * left. exists x. split; [done|]. by apply Qeq_bool_iff.
  - intros [-> Hst]. split; [done|].
    destruct Hst as [(x & -> & Hx)| ->]; [|done].
    by apply Qeq_bool_iff.
Qed.

Lemma as_dict_Some e d : as_dict e = Some d ↔ e = JObject d.
Proof.
  split; [|by intros ->]. destruct e; try done. cbn. by intros [= ->].
Qed.

Lemma dicts_of_elements elements dicts :
  Forall2 (λ e d, as_dict e = Some d) elements dicts →
  ∀ c, c ∈ dicts ↔ JObject c ∈ elements.
Proof.
  induction 1 as [|e d elements dicts He _ IH]; intros c.
  - split; by intros ?%not_elem_of_nil.
  - apply as_dict_Some in He as ->. rewrite !elem_of_cons, IH.
    split; intros [H|H]; try (by right); left; congruence.
Qed.

Lemma select_contracts_array elements contracts :
  select_contracts (JArray elements) = Some contracts →
  ∀ c, c ∈ contracts ↔ JObject c ∈ elements ∧ active_usdt c.
Proof.
  unfold select_contracts.
  destruct (mapM as_dict elements) as [dicts|] eqn:Hm; [|done].
  intros [= <-] c. rewrite list_elem_of_filter, is_active_usdt_iff.
  apply mapM_Some in Hm.
  rewrite (dicts_of_elements _ _ Hm c). tauto.
Qed.

(** X21. Every symbol that [get_all_symbols] returns is the non-empty
    [symbol] field of an object of the payload that is settled in USDT and
    has state 0, and every such field is returned: nothing else gets into
    the list. *)
Theorem listed_symbols_are_active_usdt reply jitter symbols :
  get_all_symbols reply jitter = Some symbols →
  ∃ data,
    (fetch_json 3 reply jitter).2 = Returned data ∧
    ∀ v, v ∈ symbols ↔
         ∃ c, JObject c ∈ payload_elements data ∧ active_usdt c ∧
              dict_get "symbol" c = Some v ∧ json_truthy (Some v) = true.
Proof.
  unfold get_all_symbols, get_all_contracts.
  destruct (fetch_json 3 reply jitter).2 as [data| |]; [|done|done].
  destruct (select_contracts data) as [contracts|] eqn:Hsel; [|done].
  intros [= <-]. exists data. split; [done|]. intros v.
  rewrite list_elem_of_omap.
  assert (∀ c, c ∈ contracts ↔ JObject c ∈ payload_elements data ∧ active_usdt c)
    as Hc.
  { destruct data as [| | |s|elements|items]; try done.
    - destruct s; [|done]. injection Hsel as <-. intros c. split.
      + by intros ?%not_elem_of_nil.
      + by intros [?%not_elem_of_nil _].
    - by apply select_contracts_array.
    - by apply select_contracts_array. }
  unfold symbol_field. split.
  - intros (c & Hin & Hf). exists c. apply Hc in Hin as [? ?].
    destruct (json_truthy (dict_get "symbol" c)) eqn:Ht; [|done].
    rewrite Hf in Ht. done.
  - intros (c & Hin & Hact & Hs & Ht). exists c. split; [by apply Hc|].
    by rewrite Hs, Ht.
Qed.

(** X22. One element that is not an object spoils the whole payload: on
    an array, [get_all_symbols] fails exactly when some element is not an
    object, whatever the other elements are; a single object is handled
    like an array of one; and when [fetch_json] does not return, nothing
    is listed. *)
Theorem one_bad_element_fails_catalog reply jitter :
  (∀ elements,
     (fetch_json 3 reply jitter).2 = Returned (JArray elements) →
     get_all_symbols reply jitter = None ↔
     ∃ e, e ∈ elements ∧ as_dict e = None) ∧
  (∀ items,
     (fetch_json 3 reply jitter).2 = Returned (JObject items) →
     is_Some (get_all_symbols reply jitter)) ∧
  ((∀ data, (fetch_json 3 reply jitter).2 ≠ Returned data) →
   get_all_symbols reply jitter = None).
Proof.
  unfold get_all_symbols, get_all_contracts. split; [|split].
  - intros elements ->. unfold select_contracts.
    destruct (mapM as_dict elements) as [dicts|] eqn:Hm; cbn.
    + split; [done|]. intros (e & Hin & He).
      assert (mapM as_dict elements = None) as Hn; [|congruence].
      apply mapM_None. apply Exists_exists. eauto.
    + split; [|done]. intros _. apply mapM_None in Hm.
      apply Exists_exists in Hm as (e & Hin & He). eauto.
  - intros items ->. cbn. eauto.
  - intros Hno. destruct (fetch_json 3 reply jitter).2 as [data| |]; [|done|done].
    by destruct (Hno data).
Qed.

(** ** The subscription queue *)

Lemma append_if_new_elem (all : list string) sym s :
  s ∈ (if bool_decide (sym ∈ all) then all else all ++ [sym]) ↔
  s ∈ all ∨ s = sym.
Proof.
  destruct (bool_decide (sym ∈ all)) eqn:E.
  - apply bool_decide_eq_true in E. split; [by left|].
    intros [?| ->]; done.
  - rewrite elem_of_app, list_elem_of_singleton. done.
Qed.

Lemma append_if_new_NoDup (all : list string) sym :
  NoDup all → NoDup (if bool_decide (sym ∈ all) then all else all ++ [sym]).
Proof.
  intros Hnd. destruct (bool_decide (sym ∈ all)) eqn:E; [done|].
  apply bool_decide_eq_false in E. apply NoDup_app. split; [done|].
  split; [|apply NoDup_singleton].
  intros x Hx Hy. apply list_elem_of_singleton in Hy as ->. done.
Qed.

Lemma drain_queue_conserves sends : ∀ all queue,
  let drained := drain_queue sends all queue in
  (∃ sent, drain_frames drained = SubTicker <$> sent ∧
           sent ++ drain_queue_left drained ≡ₚ queue) ∧
  (∀ s, s ∈ drain_all drained → s ∈ all ∨ s ∈ queue) ∧
  (∀ s, s ∈ all → s ∈ drain_all drained) ∧
  (NoDup all → NoDup (drain_all drained)) ∧
  (drain_ended drained = true →
     drain_queue_left drained = [] ∧ ∀ s, s ∈ queue → s ∈ drain_all drained).
Proof.
  induction sends as [|sent sends IH]; intros all queue.
  - destruct queue as [|new_sym waiting]; cbn.
    + split; [by exists []|]. split; [by left|]. split; [done|].
      split; [done|]. split; [done|]. by intros s ?%not_elem_of_nil.
    + split; [by exists []|]. split; [by left|]. do 2 (split; [done|]). done.
  - destruct queue as [|new_sym waiting].
    { cbn. split; [by exists []|]. split; [by left|]. split; [done|].
      split; [done|]. split; [done|]. by intros s ?%not_elem_of_nil. }
    cbn [drain_queue].
    set (all1 := if bool_decide (new_sym ∈ all) then all else all ++ [new_sym]).
    destruct sent.
    + destruct (IH all1 waiting) as ((sent & Hf & Hp) & Hsub & Hkeep & Hnd & Hend).
      cbn. split; [|split; [|split; [|split]]].
      * exists (new_sym :: sent). split; [by rewrite Hf|]. cbn. by rewrite Hp.
      * intros s Hs. apply Hsub in Hs as [Hs|Hs].
        -- apply append_if_new_elem in Hs as [?| ->]; [by left|].
           right. apply elem_of_cons. by left.
        -- right. apply elem_of_cons. by right.
      * intros s Hs. apply Hkeep, append_if_new_elem. by left.
      * intros H. by apply Hnd, append_if_new_NoDup.
      * intros He. destruct (Hend He) as [Hq Hall]. split; [done|].
        intros s Hs. apply elem_of_cons in Hs as [->|Hs]; [|by apply Hall].
        apply Hkeep, append_if_new_elem. by right.
    + destruct (IH all1 (waiting ++ [new_sym]))
        as ((sent & Hf & Hp) & Hsub & Hkeep & Hnd & Hend).
      split; [|split; [|split; [|split]]].
      * exists sent. split; [done|]. rewrite Hp.
        by rewrite Permutation_app_comm.
      * intros s Hs. apply Hsub in Hs as [Hs|Hs].
        -- apply append_if_new_elem in Hs as [?| ->]; [by left|].
           right. apply elem_of_cons. by left.
        -- right. apply elem_of_app in Hs as [Hs|Hs].
           ++ apply elem_of_cons. by right.
           ++ apply list_elem_of_singleton in Hs as ->. apply elem_of_cons. by left.
      * intros s Hs. apply Hkeep, append_if_new_elem. by left.
      * intros H. by apply Hnd, append_if_new_NoDup.
      * intros He. destruct (Hend He) as [Hq Hall]. split; [done|].
        intros s Hs. apply Hall. apply elem_of_cons in Hs as [->|Hs].
        -- apply elem_of_app. right. by apply list_elem_of_singleton.
        -- apply elem_of_app. by left.
Qed.

(** X23. The drain of the subscription queue loses nothing and repeats
    nothing: whichever sends fail, the symbols subscribed and the symbols
    still queued are together exactly the symbols that were queued;
    [ALL_SYMBOLS] keeps what it had, gains only queued symbols and stays
    free of duplicates; and when the loop ends the queue is empty and
    every queued symbol is in [ALL_SYMBOLS]. *)
Theorem drain_loses_nothing sends all queue :
  let drained := drain_queue sends all queue in
  (∃ sent, drain_frames drained = SubTicker <$> sent ∧
           sent ++ drain_queue_left drained ≡ₚ queue) ∧
  (∀ s, s ∈ drain_all drained → s ∈ all ∨ s ∈ queue) ∧
  (∀ s, s ∈ all → s ∈ drain_all drained) ∧
  (NoDup all → NoDup (drain_all drained)) ∧
  (drain_ended drained = true →
     drain_queue_left drained = [] ∧ ∀ s, s ∈ queue → s ∈ drain_all drained).
Proof. apply drain_queue_conserves. Qed.

Lemma drain_queue_all_sent sends : ∀ all queue,
  Forall (λ sent, sent = true) sends →
  (length queue <= length sends)%nat →
  drain_frames (drain_queue sends all queue) = SubTicker <$> queue ∧
  drain_queue_left (drain_queue sends all queue) = [] ∧
  drain_ended (drain_queue sends all queue) = true.
Proof.
  induction sends as [|sent sends IH]; intros all queue Hall Hlen.
  - destruct queue; [done|]. cbn in Hlen. lia.
  - destruct queue as [|new_sym waiting]; [done|].
    apply Forall_cons in Hall as [-> Hall]. cbn in Hlen.
    cbn [drain_queue].
    destruct (IH (if bool_decide (new_sym ∈ all) then all else all ++ [new_sym])
                waiting Hall) as (Hf & Hq & He); [lia|].
    cbn. by rewrite Hf.
Qed.

Lemma drain_queue_none_sent sends : ∀ all queue,
  Forall (λ sent, sent = false) sends →
  queue ≠ [] →
  drain_frames (drain_queue sends all queue) = [] ∧
  drain_ended (drain_queue sends all queue) = false ∧
  drain_queue_left (drain_queue sends all queue) ≡ₚ queue.
Proof.
  induction sends as [|sent sends IH]; intros all queue Hall Hne.
  - destruct queue; done.
  - destruct queue as [|new_sym waiting]; [done|].
    apply Forall_cons in Hall as [-> Hall]. cbn [drain_queue].
    destruct (IH (if bool_decide (new_sym ∈ all) then all else all ++ [new_sym])
                (waiting ++ [new_sym]) Hall) as (Hf & He & Hp).
    { by destruct waiting. }
    split; [done|]. split; [done|]. rewrite Hp.
    by rewrite Permutation_app_comm.
Qed.

(** X24. When the sends get through, the drain subscribes the queued
    symbols in the order in which they were queued, one frame each, and
    ends with an empty queue.  When the sends fail, the loop does not
    end: however many sends are tried, no frame has gone out, every symbol
    is back in the queue and the loop is still running. *)
Theorem drain_ends_only_when_sends_succeed sends all queue :
  (Forall (λ sent, sent = true) sends → (length queue <= length sends)%nat →
     drain_frames (drain_queue sends all queue) = SubTicker <$> queue ∧
     drain_queue_left (drain_queue sends all queue) = [] ∧
     drain_ended (drain_queue sends all queue) = true) ∧
  (Forall (λ sent, sent = false) sends → queue ≠ [] →
     drain_frames (drain_queue sends all queue) = [] ∧
     drain_ended (drain_queue sends all queue) = false ∧
     drain_queue_left (drain_queue sends all queue) ≡ₚ queue).
Proof.
  split.
  - apply drain_queue_all_sent.
  - apply drain_queue_none_sent.
Qed.

(** ** New listings *)

Lemma catalog_eq (a b : Catalog) :
  KNOWN_SYMBOLS a = KNOWN_SYMBOLS b → ALL_SYMBOLS a = ALL_SYMBOLS b →
  WS_SUB_QUEUE a = WS_SUB_QUEUE b → a = b.
Proof. destruct a, b. cbn. by intros -> -> ->. Qed.

Lemma enqueue_all (symbols : list string) : ∀ cat,
  KNOWN_SYMBOLS (foldl enqueue_new cat symbols) = KNOWN_SYMBOLS cat ∧
  WS_SUB_QUEUE (foldl enqueue_new cat symbols)
  = (λ queue, queue ++ symbols) <$> WS_SUB_QUEUE cat ∧
  (∀ s, s ∈ ALL_SYMBOLS (foldl enqueue_new cat symbols) ↔
        s ∈ ALL_SYMBOLS cat ∨ s ∈ symbols) ∧
  (NoDup (ALL_SYMBOLS cat) →
   NoDup (ALL_SYMBOLS (foldl enqueue_new cat symbols))).
Proof.
  induction symbols as [|sym symbols IH]; intros cat.
  - cbn. split; [done|]. split.
    + destruct (WS_SUB_QUEUE cat); cbn; [by rewrite app_nil_r|done].
    + split; [|done]. intros s. split; [by left|].
      by intros [?|?%not_elem_of_nil].
  - cbn [foldl]. destruct (IH (enqueue_new cat sym)) as (Hk & Hq & Ha & Hn).
    split; [done|]. split; [|split].
    + rewrite Hq. cbn. destruct (WS_SUB_QUEUE cat); cbn; [|done].
      by rewrite <- app_assoc.
    + intros s. rewrite Ha. cbn [enqueue_new ALL_SYMBOLS].
      rewrite append_if_new_elem, elem_of_cons. tauto.
    + intros H. apply Hn. cbn. by apply append_if_new_NoDup.
Qed.

Lemma no_recipient_iff reg :
  bool_decide (SUBSCRIBERS reg = ∅) && negb (Py.truthy (CHANNEL_ID reg)) = false
  ↔ has_recipient reg.
Proof.
  unfold has_recipient. rewrite andb_false_iff, negb_false_iff.
  by rewrite bool_decide_eq_false.
Qed.

(** X25. The listing job is idempotent and never forgets: a second run
    on the same list of symbols announces nothing and changes nothing,
    whether the first run seeded the known symbols or announced new ones;
    and whatever the job is given, the known symbols and [ALL_SYMBOLS]
    only grow. *)
Theorem listing_job_is_idempotent reg fetched cat :
  job_new_listing reg fetched (job_new_listing reg fetched cat).1
  = ((job_new_listing reg fetched cat).1, None) ∧
  KNOWN_SYMBOLS cat ⊆ KNOWN_SYMBOLS (job_new_listing reg fetched cat).1 ∧
  (∀ s, s ∈ ALL_SYMBOLS cat →
        s ∈ ALL_SYMBOLS (job_new_listing reg fetched cat).1).
Proof.
  destruct (bool_decide (SUBSCRIBERS reg = ∅)
            && negb (Py.truthy (CHANNEL_ID reg))) eqn:Hrec.
  { unfold job_new_listing. by rewrite Hrec. }
  destruct fetched as [symbols|].
  2: { unfold job_new_listing. by rewrite Hrec. }
  destruct (bool_decide (KNOWN_SYMBOLS cat = ∅)) eqn:Hk.
  - assert (job_new_listing reg (Some symbols) cat
            = (mkCatalog (list_to_set symbols) (ALL_SYMBOLS cat)
                         (WS_SUB_QUEUE cat), None)) as ->.
    { unfold job_new_listing. by rewrite Hrec, Hk. }
    apply bool_decide_eq_true in Hk. cbn [fst KNOWN_SYMBOLS ALL_SYMBOLS].
    split; [|split; [rewrite Hk; set_solver|done]].
    unfold job_new_listing. rewrite Hrec. cbn [KNOWN_SYMBOLS].
    destruct (bool_decide (list_to_set symbols = ∅)); [done|].
    rewrite bool_decide_eq_true_2; [done|]. set_solver.
  - destruct (bool_decide (list_to_set symbols ∖ KNOWN_SYMBOLS cat = ∅))
      eqn:Hn.
    + assert (job_new_listing reg (Some symbols) cat = (cat, None)) as ->.
      { unfold job_new_listing. by rewrite Hrec, Hk, Hn. }
      cbn [fst]. split; [|done].
      unfold job_new_listing. by rewrite Hrec, Hk, Hn.
    + pose proof (enqueue_all
        (elements (list_to_set symbols ∖ KNOWN_SYMBOLS cat : gset string))
        (mkCatalog (KNOWN_SYMBOLS cat ∪ list_to_set symbols ∖ KNOWN_SYMBOLS cat)
               (ALL_SYMBOLS cat) (WS_SUB_QUEUE cat)))
        as (Hkn & _ & Hall & _).
      cbn [KNOWN_SYMBOLS ALL_SYMBOLS] in Hkn, Hall.
      assert ((job_new_listing reg (Some symbols) cat).1
              = foldl enqueue_new
                  (mkCatalog
                     (KNOWN_SYMBOLS cat ∪ list_to_set symbols ∖ KNOWN_SYMBOLS cat)
                     (ALL_SYMBOLS cat) (WS_SUB_QUEUE cat))
                  (elements (list_to_set symbols ∖ KNOWN_SYMBOLS cat : gset string)))
        as ->.
      { unfold job_new_listing. by rewrite Hrec, Hk, Hn. }
      apply bool_decide_eq_false in Hk.
      split; [|split].
      * unfold job_new_listing at 1. rewrite Hrec, Hkn.
        rewrite bool_decide_eq_false_2 by set_solver.
        rewrite bool_decide_eq_true_2; [done|]. set_solver.
      * rewrite Hkn. set_solver.
      * intros s Hs. apply Hall. by left.
Qed.

Lemma job_new_listing_delta reg symbols cat :
  has_recipient reg → KNOWN_SYMBOLS cat ≠ ∅ →
  list_to_set symbols ∖ KNOWN_SYMBOLS cat ≠ (∅ : gset string) →
  job_new_listing reg (Some symbols) cat
  = (foldl enqueue_new
       (mkCatalog (KNOWN_SYMBOLS cat ∪ list_to_set symbols ∖ KNOWN_SYMBOLS cat)
                  (ALL_SYMBOLS cat) (WS_SUB_QUEUE cat))
       (elements (list_to_set symbols ∖ KNOWN_SYMBOLS cat : gset string)),
     Some (mkAnnouncement
       (map replace_USDT
          (sorted (elements (list_to_set symbols ∖ KNOWN_SYMBOLS cat : gset string))))
       ((if Py.truthy (CHANNEL_ID reg)
         then match CHANNEL_ID reg with Some c => [Channel c] | None => [] end
         else [])
        ++ map Chat (elements (SUBSCRIBERS reg))))).
Proof.
  intros Hrec%no_recipient_iff Hk Hn. unfold job_new_listing.
  rewrite Hrec. by rewrite !bool_decide_eq_false_2.
Qed.

Lemma job_new_listing_nothing_new reg symbols cat :
  has_recipient reg → KNOWN_SYMBOLS cat ≠ ∅ →
  list_to_set symbols ∖ KNOWN_SYMBOLS cat = (∅ : gset string) →
  job_new_listing reg (Some symbols) cat = (cat, None).
Proof.
  intros Hrec%no_recipient_iff Hk Hn. unfold job_new_listing.
  rewrite Hrec. rewrite bool_decide_eq_false_2 by done.
  by rewrite bool_decide_eq_true_2.
Qed.

Lemma new_coins_elem (symbols : list string) (known : gset string) s :
  s ∈ elements (list_to_set symbols ∖ known : gset string)
  ↔ s ∈ symbols ∧ s ∉ known.
Proof. rewrite elem_of_elements, elem_of_difference, elem_of_list_to_set. done. Qed.

Lemma nothing_new_iff (symbols : list string) (known : gset string) :
  list_to_set symbols ∖ known = (∅ : gset string)
  ↔ ∀ s, s ∈ symbols → s ∈ known.
Proof.
  split.
  - intros Hn s Hs. destruct (decide (s ∈ known)) as [|Hk]; [done|].
    assert (s ∈ (list_to_set symbols ∖ known : gset string)) as H.
    { apply elem_of_difference. by rewrite elem_of_list_to_set. }
    rewrite Hn in H. by apply not_elem_of_empty in H.
  - intros Hall. apply set_eq. intros s.
    rewrite elem_of_difference, elem_of_list_to_set.
    split; [|by intros ?%not_elem_of_empty]. intros [Hs Hs']. by apply Hall in Hs.
Qed.

(** X26. With somebody to notify and symbols already known, the listing
    job announces exactly the fetched symbols that were not known, by
    their coin names, and remembers them; it announces nothing exactly
    when every fetched symbol was known.  The announcement goes once to
    the channel, when one is set, and once to every subscriber, whatever
    the subscriber's mode and mutes. *)
Theorem new_listing_announcement reg symbols cat :
  has_recipient reg → KNOWN_SYMBOLS cat ≠ ∅ →
  let result := job_new_listing reg (Some symbols) cat in
  KNOWN_SYMBOLS result.1 = KNOWN_SYMBOLS cat ∪ list_to_set symbols ∧
  (result.2 = None ↔ ∀ s, s ∈ symbols → s ∈ KNOWN_SYMBOLS cat) ∧
  (∀ a, result.2 = Some a →
     (∀ coin, coin ∈ announced a ↔
        ∃ s, s ∈ symbols ∧ (s ∉ KNOWN_SYMBOLS cat) ∧ coin = replace_USDT s) ∧
     (∀ chat_id, Chat chat_id ∈ sent_to a ↔ chat_id ∈ SUBSCRIBERS reg) ∧
     (∀ c, Channel c ∈ sent_to a ↔
        CHANNEL_ID reg = Some c ∧ Py.truthy (CHANNEL_ID reg) = true) ∧
     NoDup (sent_to a)).
Proof.
  intros Hrec Hk result. subst result.
  destruct (decide (list_to_set symbols ∖ KNOWN_SYMBOLS cat = (∅ : gset string)))
    as [Hn|Hn].
  - rewrite job_new_listing_nothing_new by done. cbn [fst snd].
    pose proof (proj1 (nothing_new_iff _ _) Hn) as Hall.
    split; [|done]. apply set_eq. intros s.
    rewrite elem_of_union, elem_of_list_to_set. split; [by left|].
    intros [?|?]; [done|by apply Hall].
  - rewrite job_new_listing_delta by done. cbn [fst snd].
    destruct (enqueue_all
      (elements (list_to_set symbols ∖ KNOWN_SYMBOLS cat : gset string))
      (mkCatalog (KNOWN_SYMBOLS cat ∪ list_to_set symbols ∖ KNOWN_SYMBOLS cat)
                 (ALL_SYMBOLS cat) (WS_SUB_QUEUE cat))) as (-> & _).
    cbn [KNOWN_SYMBOLS]. split.
    { apply set_eq. intros s.
      rewrite !elem_of_union, elem_of_difference.
      destruct (decide (s ∈ KNOWN_SYMBOLS cat)); tauto. }
    split.
    { split; [done|]. intros Hall. exfalso. by apply Hn, nothing_new_iff. }
    intros a [= <-]. cbn [announced sent_to]. split; [|split; [|split]].
    + intros coin. rewrite list_elem_of_fmap. unfold sorted.
      split.
      * intros (s & -> & Hs). rewrite merge_sort_Permutation in Hs.
        apply new_coins_elem in Hs as [? ?]. by exists s.
      * intros (s & ? & ? & ->). exists s. split; [done|].
        rewrite merge_sort_Permutation. by apply new_coins_elem.
    + intros chat_id. rewrite elem_of_app, list_elem_of_fmap. split.
      * intros [H|(c & [= ->] & Hc)]; [|by apply elem_of_elements in Hc].
        destruct (Py.truthy (CHANNEL_ID reg)), (CHANNEL_ID reg);
          try (by apply not_elem_of_nil in H).
        by apply list_elem_of_singleton in H.
      * intros Hc. right. exists chat_id. by rewrite elem_of_elements.
    + intros c. rewrite elem_of_app, list_elem_of_fmap. split.
      * intros [H|(? & [=] & _)].
        destruct (Py.truthy (CHANNEL_ID reg)), (CHANNEL_ID reg);
          try (by apply not_elem_of_nil in H).
        apply list_elem_of_singleton in H as [= ->]. done.
      * intros [-> ->]. left. by apply list_elem_of_singleton.
    + apply NoDup_app. split; [|split].
      * destruct (Py.truthy (CHANNEL_ID reg)), (CHANNEL_ID reg);
          try apply NoDup_nil_2. apply NoDup_singleton.
      * intros t Ht (? & -> & _)%list_elem_of_fmap.
        destruct (Py.truthy (CHANNEL_ID reg)), (CHANNEL_ID reg);
          try (by apply not_elem_of_nil in Ht).
        by apply list_elem_of_singleton in Ht.
      * apply NoDup_fmap_2; [by intros ? ? [=]|]. apply NoDup_elements.
Qed.

Lemma new_coins_length (symbols : list string) (known : gset string) :
  (length (elements (list_to_set symbols ∖ known : gset string))
   <= length symbols)%nat.
Proof.
  apply submseteq_length, NoDup_submseteq; [apply NoDup_elements|].
  by intros s [? _]%new_coins_elem.
Qed.

(** X27. A newly listed symbol gets its ticker subscription.  When a
    session has created the queue, the first message after the listing job
    that is a dict and no ping drains the queue, provided the sends get
    through: the subscription for the symbol is sent, the queue is left
    empty and the symbol is in [ALL_SYMBOLS].  When no session has created
    the queue yet, the symbol is among the subscriptions of the next
    connection. *)
Theorem new_listing_gets_subscribed reg now symbols cat sym d sends st :
  has_recipient reg → KNOWN_SYMBOLS cat ≠ ∅ →
  sym ∈ symbols → sym ∉ KNOWN_SYMBOLS cat →
  let listed := (job_new_listing reg (Some symbols) cat).1 in
  (∀ queue, WS_SUB_QUEUE cat = Some queue → ping d = None →
     Forall (λ sent, sent = true) sends →
     (length queue + length symbols <= length sends)%nat →
     let round := on_message reg now sends (Decoded d) st listed in
     SubTicker sym ∈ round_frames round ∧
     round_ended round = true ∧
     WS_SUB_QUEUE (round_catalog round) = Some [] ∧
     sym ∈ ALL_SYMBOLS (round_catalog round)) ∧
  (WS_SUB_QUEUE cat = None →
     ∀ fetched, (before_connect fetched listed).2 = true ∧
       SubTicker sym ∈ subscribe_all (before_connect fetched listed).1).
Proof.
  intros Hrec Hk Hsym Hnew listed.
  assert (list_to_set symbols ∖ KNOWN_SYMBOLS cat ≠ (∅ : gset string)) as Hn.
  { intros Hn. by apply Hnew, (proj1 (nothing_new_iff _ _) Hn). }
  subst listed. rewrite job_new_listing_delta by done. cbn [fst].
  set (new := elements (list_to_set symbols ∖ KNOWN_SYMBOLS cat : gset string)).
  destruct (enqueue_all new
    (mkCatalog (KNOWN_SYMBOLS cat ∪ list_to_set symbols ∖ KNOWN_SYMBOLS cat)
               (ALL_SYMBOLS cat) (WS_SUB_QUEUE cat))) as (_ & Hq & Hall & _).
  cbn [ALL_SYMBOLS WS_SUB_QUEUE] in Hq, Hall.
  assert (sym ∈ new) as Hin by by apply new_coins_elem.
  set (listed := foldl enqueue_new _ new) in *.
  split.
  - intros queue Hqueue Hping Hsent Hlen.
    rewrite Hqueue in Hq. cbn in Hq.
    unfold on_message. rewrite Hping, Hq. cbn [round_frames round_ended
      round_catalog WS_SUB_QUEUE ALL_SYMBOLS].
    destruct (drain_queue_all_sent sends (ALL_SYMBOLS listed) (queue ++ new))
      as (Hf & Hl & He); [done| |].
    { rewrite length_app. pose proof (new_coins_length symbols (KNOWN_SYMBOLS cat)).
      fold new in H. lia. }
    rewrite Hf, Hl, He. split; [|split; [done|split; [done|]]].
    + apply list_elem_of_fmap. exists sym. split; [done|].
      apply elem_of_app. by right.
    + destruct (drain_queue_conserves sends (ALL_SYMBOLS listed) (queue ++ new))
        as (_ & _ & Hkeep & _).
      apply Hkeep, Hall. by right.
  - intros Hnone fetched. unfold before_connect, subscribe_all.
    assert (sym ∈ ALL_SYMBOLS listed) as Hs by (apply Hall; by right).
    destruct (ALL_SYMBOLS listed) as [|s all] eqn:E.
    { by apply not_elem_of_nil in Hs. }
    cbn [fst snd ALL_SYMBOLS]. split; [done|].
    apply list_elem_of_fmap. by exists sym.
Qed.

(** X28. The catalog is fetched only while [ALL_SYMBOLS] is empty.  When
    the listing job announces new symbols before the catalog was ever
    loaded, the next connection does not fetch it: it subscribes to the
    new symbols and to nothing else. *)
Theorem listing_before_catalog_narrows_stream reg symbols cat fetched :
  has_recipient reg → KNOWN_SYMBOLS cat ≠ ∅ → ALL_SYMBOLS cat = [] →
  (∃ s, s ∈ symbols ∧ s ∉ KNOWN_SYMBOLS cat) →
  let listed := (job_new_listing reg (Some symbols) cat).1 in
  ALL_SYMBOLS (before_connect fetched listed).1 = ALL_SYMBOLS listed ∧
  ∀ s, SubTicker s ∈ subscribe_all (before_connect fetched listed).1
       ↔ s ∈ symbols ∧ s ∉ KNOWN_SYMBOLS cat.
Proof.
  intros Hrec Hk Hempty (sym & Hsym & Hnew) listed.
  assert (list_to_set symbols ∖ KNOWN_SYMBOLS cat ≠ (∅ : gset string)) as Hn.
  { intros Hn. by apply Hnew, (proj1 (nothing_new_iff _ _) Hn). }
  subst listed. rewrite job_new_listing_delta by done. cbn [fst].
  set (new := elements (list_to_set symbols ∖ KNOWN_SYMBOLS cat : gset string)).
  destruct (enqueue_all new
    (mkCatalog (KNOWN_SYMBOLS cat ∪ list_to_set symbols ∖ KNOWN_SYMBOLS cat)
               (ALL_SYMBOLS cat) (WS_SUB_QUEUE cat))) as (_ & _ & Hall & _).
  cbn [ALL_SYMBOLS] in Hall.
  set (listed := foldl enqueue_new _ new) in *.
  assert (sym ∈ ALL_SYMBOLS listed) as Hs.
  { apply Hall. right. by apply new_coins_elem. }
  unfold before_connect, subscribe_all.
  destruct (ALL_SYMBOLS listed) as [|s0 all] eqn:E.
  { by apply not_elem_of_nil in Hs. }
  cbn [fst ALL_SYMBOLS]. split; [done|].
  intros s. rewrite list_elem_of_fmap. split.
  - intros (s' & [= <-] & Hs'). apply Hall in Hs' as [Hs'|Hs'].
    + rewrite Hempty in Hs'. by apply not_elem_of_nil in Hs'.
    + by apply new_coins_elem.
  - intros Hs'. exists s. split; [done|]. apply Hall. right.
    by apply new_coins_elem.
Qed.

(** ** Instances of the further properties *)

(** Evaluate a decidable statement. *)
Ltac by_computation := apply (bool_decide_unpack _); by vm_compute.

(** User 5 is no admin: the registry is as before his commands. *)
Lemma non_admin_is_refused_witness :
  cmd_subscribe admins 5 5 demo_registry = demo_registry ∧
  cmd_mute upper_word admins ["btc"%string] 5 5 demo_registry = demo_registry.
Proof.
  assert (admins ≠ ∅) as Ha by by_computation.
  assert (5 ∉ admins) as Hn by by_computation.
  destruct (non_admin_is_refused admins upper_word ["btc"%string] 5 5
              demo_registry Ha Hn) as (H1 & _ & _ & _ & _ & H6 & _).
  by split.
Defined.

(** User 5, no admin, becomes a target of the alerts on [BTC] by
    [/start]. *)
Lemma start_bypasses_admin_gate_witness :
  Chat 5 ∈ build_tasks (cmd_start 5 demo_registry) BTC 4.
Proof.
  assert (admins ≠ ∅) as Ha by by_computation.
  assert (5 ∉ admins) as Hn by by_computation.
  assert (5 ∉ SUBSCRIBERS demo_registry) as Hs by by_computation.
  assert (ALERT_MODE demo_registry !! 5 = None) as Hm by by vm_compute.
  assert (¬ muted_for demo_registry 5 BTC) as Hmu.
  { intros (coins & Hc & _). vm_compute in Hc. discriminate Hc. }
  apply (start_bypasses_admin_gate admins 5 5 demo_registry BTC 4 Ha Hn Hs Hm Hmu).
Defined.

(** Admin 1 puts chat 7 in mode 3: a move of 4% is not sent to it. *)
Lemma mode_command_sets_delivery_witness :
  Chat 7 ∉ build_tasks (cmd_mode3 admins 1 7 demo_registry) BTC 4.
Proof.
  assert (authorized admins 1) as Ha by (right; by_computation).
  destruct (mode_command_sets_delivery admins 1 7 demo_registry BTC 4 Ha)
    as (_ & _ & H3).
  intros Hin. apply H3 in Hin as (_ & _ & Hle). by vm_compute in Hle.
Defined.

(** A move of 7% reaches chat 7, which has no mode. *)
Lemma restricted_modes_miss_5_to_10_witness :
  alert_mode demo_registry 7 ≠ 2 ∧ alert_mode demo_registry 7 ≠ 3.
Proof.
  assert (process_ticker demo_registry (seconds 1) (sample 107) after_first
          = ((process_ticker demo_registry (seconds 1) (sample 107)
                after_first).1, Some (demo_alert demo_registry 107))) as Hp
    by by vm_compute.
  apply (restricted_modes_miss_5_to_10 _ _ _ _ _ _ 7 Hp).
  - by vm_compute.
  - by vm_compute.
  - vm_compute. repeat constructor.
Defined.

(** Admin 1 mutes [btc] for chat 8: no alert on [BTC_USDT] reaches it. *)
Lemma mute_blocks_symbol_witness :
  Chat 8 ∉ build_tasks (cmd_mute upper_word admins ["btc"%string] 1 8
                          demo_registry) BTC 4.
Proof.
  assert (authorized admins 1) as Ha by (right; by_computation).
  destruct (mute_blocks_symbol upper_word admins "btc"%string [] 1 8
              demo_registry Ha) as (H & _).
  apply (H 4%Q).
Defined.

(** [/mute btc] and then [/unmute btc] for chat 8 leave [BTC_USDT]
    unmuted. *)
Lemma unmute_undoes_mute_witness :
  ¬ muted_for
      (cmd_unmute upper_word admins ["btc"%string] 1 8
         (cmd_mute upper_word admins ["btc"%string] 1 8 demo_registry))
      8 BTC.
Proof.
  assert (authorized admins 1) as Ha by (right; by_computation).
  destruct (unmute_undoes_mute upper_word admins "btc"%string [] 1 8
              demo_registry Ha) as (H & _).
  exact H.
Defined.

(** Chat 8 unsubscribes and subscribes again: the registry is as
    before. *)
Lemma unsubscribe_keeps_preferences_witness :
  cmd_subscribe admins 1 8 (cmd_unsubscribe admins 1 8 demo_registry)
  = demo_registry.
Proof.
  assert (authorized admins 1) as Ha by (right; by_computation).
  destruct (unsubscribe_keeps_preferences admins 1 8 demo_registry Ha)
    as (_ & _ & _ & _ & H).
  apply H. by_computation.
Defined.



(** A sample of [BTC] leaves the entries of [ETH_USDT] alone. *)
Lemma other_symbols_untouched_witness :
  same_entries "ETH_USDT"
    (process_ticker demo_registry (seconds 1) (sample 112) after_first).1
    after_first.
Proof.
  apply (other_symbols_untouched demo_registry (seconds 1) (sample 112)
           after_first "ETH_USDT"%string).
  by vm_compute.
Defined.


(** From 100 to 103 in three steps of about 1%: no alert, and the base
    price ends at 103. *)
Lemma slow_drift_never_alerts_witness :
  Forall (λ alert, alert = None) (process_all demo_registry drift after_first).2 ∧
  BASE_PRICES (process_all demo_registry drift after_first).1 !! BTC
  = Some (final_price 100 drift).
Proof.
  assert (BASE_PRICES after_first !! BTC = Some 100%Q) as Hb by by vm_compute.
  assert (small_steps BTC 100 drift) as Hs.
  { repeat split; by vm_compute. }
  apply (slow_drift_never_alerts demo_registry drift after_first BTC 100%Q
           reachable_after_first Hb Hs).
Defined.

(** After the alert on the jump from 100 to 112, a second sample at 112
    raises none. *)
Lemma extreme_alert_is_not_repeated_witness :
  (process_ticker demo_registry (seconds 2) (sample 112)
     (process_ticker demo_registry (seconds 1) (sample 112) after_first).1).2
  = None.
Proof.
  assert (valid_sample (sample 112) BTC) as Hv
    by (apply valid_sample_liquid; by vm_compute).
  assert (BASE_PRICES after_first !! BTC = Some 100%Q) as Hb by by vm_compute.
  assert ((process_ticker demo_registry (seconds 1) (sample 112) after_first).2
          = Some (demo_alert demo_registry 112)) as Ha by by vm_compute.
  assert (severity (msg (demo_alert demo_registry 112)) = EXTREME) as Hsev
    by by vm_compute.
  assert (tasks (demo_alert demo_registry 112) ≠ []) as Ht by by vm_compute.
  assert (price (sample 112) == price (sample 112))%Q as Hp by by vm_compute.
  apply (extreme_alert_is_not_repeated demo_registry (seconds 1) (sample 112)
           after_first BTC 100%Q _ demo_registry (seconds 2) (sample 112)
           reachable_after_first Hv Hb Ha Hsev Ht Hv Hp).
Defined.

(** The alert on the rise from 100 to 104 carries no banner and no triple
    icon. *)
Lemma alert_marks_match_move_witness :
  highlight (msg (demo_alert demo_registry 104)) = true
  ↔ icon (msg (demo_alert demo_registry 104)) = Rocket3
    ∨ icon (msg (demo_alert demo_registry 104)) = Boom3.
Proof.
  assert (process_ticker demo_registry (seconds 1) (sample 104) after_first
          = ((process_ticker demo_registry (seconds 1) (sample 104)
                after_first).1, Some (demo_alert demo_registry 104))) as Hp
    by by vm_compute.
  destruct (alert_marks_match_move _ _ _ _ _ _ reachable_after_first Hp)
    as (_ & H).
  exact H.
Defined.


(** After a sample at 102 the job makes 102 the base price. *)
Lemma backup_job_adopts_last_sample_witness :
  BASE_PRICES
    (job_reset_base_prices (seconds 400)
       (process_ticker demo_registry (seconds 1) (sample 102) after_first).1)
  !! BTC = Some (price (sample 102)).
Proof.
  apply backup_job_adopts_last_sample.
  - apply valid_sample_liquid. by vm_compute.
  - left. by vm_compute.
Defined.

(** Status 429, then a failure, then an answer: the payload is returned
    after two sleeps. *)
Lemma fetch_json_returns_first_answer_witness :
  (fetch_json 3 flaky_reply half_second).2 = Returned demo_payload ∧
  length (fetch_json 3 flaky_reply half_second).1 = 2%nat.
Proof.
  apply (fetch_json_returns_first_answer 3 flaky_reply half_second
           [("success"%string, JBool true); ("data"%string, demo_payload)] 2).
  - lia.
  - intros [|[|i]] Hi; [reflexivity|reflexivity|lia].
  - reflexivity.
Defined.

(** Three answers with status 429: three sleeps of 7 seconds or more in
    all, then the error. *)
Lemma fetch_json_gives_up_after_backoff_witness :
  (fetch_json 3 busy_reply half_second).2 = GaveUp ∧
  length (fetch_json 3 busy_reply half_second).1 = 3%nat ∧
  (inject_Z (2 ^ Z.of_nat 3 - 1)
   <= total_sleep (fetch_json 3 busy_reply half_second).1)%Q.
Proof.
  apply fetch_json_gives_up_after_backoff.
  - reflexivity.
  - intros i. by vm_compute.
Defined.

(** Three failing requests: the exception of the third is re-raised
    after two sleeps. *)
Lemma fetch_json_outcomes_witness :
  length (fetch_json 3 failing_reply half_second).1 = 2%nat.
Proof.
  destruct (fetch_json_outcomes 3 failing_reply half_second)
    as (_ & _ & H & _).
  apply H. reflexivity.
Defined.

(** Of the four contracts of the payload, the two active USDT ones are
    listed. *)
Lemma listed_symbols_are_active_usdt_witness :
  ∃ data,
    (fetch_json 3 (answering demo_payload) half_second).2 = Returned data ∧
    ∀ v, v ∈ [JString BTC; JString "ETH_USDT"] ↔
         ∃ c, JObject c ∈ payload_elements data ∧ active_usdt c ∧
              dict_get "symbol" c = Some v ∧ json_truthy (Some v) = true.
Proof.
  apply (listed_symbols_are_active_usdt (answering demo_payload) half_second).
  reflexivity.
Defined.

(** A string among the contracts: nothing is listed. *)
Lemma one_bad_element_fails_catalog_witness :
  get_all_symbols (answering spoiled_payload) half_second = None.
Proof.
  destruct (one_bad_element_fails_catalog (answering spoiled_payload)
              half_second) as (H & _).
  apply (H [contract BTC "USDT" 0; JString "maintenance"]); [reflexivity|].
  exists (JString "maintenance"). split; [|reflexivity].
  repeat constructor.
Defined.

(** One failed send among three: [ALL_SYMBOLS] stays free of
    duplicates. *)
Lemma drain_loses_nothing_witness :
  NoDup (drain_all (drain_queue [false; true; true] [BTC]
                      ["ETH_USDT"%string; "SOL_USDT"%string])).
Proof.
  destruct (drain_loses_nothing [false; true; true] [BTC]
              ["ETH_USDT"%string; "SOL_USDT"%string]) as (_ & _ & _ & H & _).
  apply H. apply NoDup_singleton.
Defined.

(** Two sends that get through empty a queue of two. *)
Lemma drain_ends_only_when_sends_succeed_witness :
  drain_ended (drain_queue [true; true] [BTC]
                 ["ETH_USDT"%string; "SOL_USDT"%string]) = true.
Proof.
  destruct (drain_ends_only_when_sends_succeed [true; true] [BTC]
              ["ETH_USDT"%string; "SOL_USDT"%string]) as (H & _).
  apply H; [repeat constructor|simpl; lia].
Defined.

(** [ETH_USDT] is new: it is remembered. *)
Lemma new_listing_announcement_witness :
  KNOWN_SYMBOLS (job_new_listing demo_registry (Some listed_now) demo_catalog).1
  = KNOWN_SYMBOLS demo_catalog ∪ list_to_set listed_now.
Proof.
  assert (has_recipient demo_registry) as Hr by (right; reflexivity).
  assert (KNOWN_SYMBOLS demo_catalog ≠ ∅) as Hk by by_computation.
  destruct (new_listing_announcement demo_registry listed_now demo_catalog
              Hr Hk) as (H & _).
  exact H.
Defined.

(** [ETH_USDT] is subscribed on the first ticker push after its
    listing. *)
Lemma new_listing_gets_subscribed_witness :
  SubTicker "ETH_USDT"
  ∈ round_frames
      (on_message demo_registry (seconds 5) [true; true]
         (Decoded (ticker_push 100)) after_third
         (job_new_listing demo_registry (Some listed_now) demo_catalog).1).
Proof.
  assert (has_recipient demo_registry) as Hr by (right; reflexivity).
  assert (KNOWN_SYMBOLS demo_catalog ≠ ∅) as Hk by by_computation.
  assert ("ETH_USDT"%string ∈ listed_now) as Hin by by_computation.
  assert ("ETH_USDT"%string ∉ KNOWN_SYMBOLS demo_catalog) as Hnew
    by by_computation.
  destruct (new_listing_gets_subscribed demo_registry (seconds 5) listed_now
              demo_catalog "ETH_USDT"%string (ticker_push 100) [true; true]
              after_third Hr Hk Hin Hnew) as (H & _).
  apply (H []); [reflexivity|reflexivity|repeat constructor|simpl; lia].
Defined.

(** With the catalog never loaded, the next connection subscribes to
    [ETH_USDT] and not to [BTC]. *)
Lemma listing_before_catalog_narrows_stream_witness :
  SubTicker "ETH_USDT"
  ∈ subscribe_all
      (before_connect (Some listed_now)
         (job_new_listing demo_registry (Some listed_now) cold_catalog).1).1
  ∧ SubTicker BTC
    ∉ subscribe_all
        (before_connect (Some listed_now)
           (job_new_listing demo_registry (Some listed_now) cold_catalog).1).1.
Proof.
  assert (has_recipient demo_registry) as Hr by (right; reflexivity).
  assert (KNOWN_SYMBOLS cold_catalog ≠ ∅) as Hk by by_computation.
  assert (∃ s, s ∈ listed_now ∧ s ∉ KNOWN_SYMBOLS cold_catalog) as Hex.
  { exists "ETH_USDT"%string. split; by_computation. }
  destruct (listing_before_catalog_narrows_stream demo_registry listed_now
              cold_catalog (Some listed_now) Hr Hk eq_refl Hex) as (_ & H).
  split.
  - apply H. split; by_computation.
  - intros [_ Hn]%H. apply Hn. by_computation.
Defined.
